(** * soliloque-server: the channel module (channel.c)

    A shallow embedding of the channel entity of soliloque-server, an
    implementation of the TeamSpeak protocol: the wire codec
    ([channel_to_data], [channel_to_data_size], [channel_from_data]), the
    two-level hierarchy ([channel_add_subchannel],
    [channel_remove_subchannel], [ch_getflags]), membership
    ([ch_isfull], [add_player_to_channel]) and the privilege resolver
    ([get_player_channel_privilege]).

    Conventions.
    - C integers are [Z]; every conversion to a fixed width is written out
      ([to_u16], [to_u32], [to_size_t], [to_int]).  The data model is LP64:
      [int] has 32 bits, [size_t] and [ptrdiff_t] have 64.
    - A pointer is an optional address ([None] is NULL).  The objects the
      pointers denote live in typed heaps ([gmap]s) of a [state], so that
      two pointers to one channel see each other's writes.
    - A run that dereferences NULL or a dangling pointer, reads outside the
      buffer it was given, or fails an [assert], is [Undefined].
    - [logger] calls have no effect on the state and are left out. *)

From Stdlib Require Import ZArith List Lia Bool.
From stdpp Require Import base option list gmap.
Import ListNotations.

#[local] Open Scope Z_scope.

(** ** Machine integers *)

Definition to_u16 (x : Z) : Z := x mod 2 ^ 16.
Definition to_u32 (x : Z) : Z := x mod 2 ^ 32.
Definition to_size_t (x : Z) : Z := x mod 2 ^ 64.
Definition INT_MAX : Z := 2 ^ 31 - 1.
Definition SIZE_MAX : Z := 2 ^ 64 - 1.

(** Conversion to [int]: the value modulo 2^32, read in two's complement. *)
Definition to_int (x : Z) : Z := (x + 2 ^ 31) mod 2 ^ 32 - 2 ^ 31.

(** ** Runs *)

Inductive exec (A : Type) : Type :=
| Done (a : A)
| Undefined.
Arguments Done {A} a.
Arguments Undefined {A}.

#[global] Instance exec_ret : MRet exec := fun A a => Done a.
#[global] Instance exec_bind : MBind exec := fun A B k m =>
  match m with
  | Done a => k a
  | Undefined => Undefined
  end.

(** ** Pointers, containers and records *)

Definition addr := positive.
Definition ptr := option addr.
Definition NULL : ptr := None.

(** [struct array] (array.h).  The source reads and writes the counters
    [used_slots] and [max_slots]; [slots] holds the stored pointers in the
    order in which [ar_each] visits them. *)
Record array := mk_array {
  used_slots : Z;
  max_slots : Z;
  slots : list ptr
}.

Definition set_max_slots (a : array) (n : Z) : array :=
  {| used_slots := used_slots a; max_slots := n; slots := slots a |}.

(** A C string is kept as the bytes before its terminating NUL. *)
Definition cstring := list Z.

(** [struct channel] (channel.h), with the fields the source uses. *)
Record channel := mk_channel {
  id : Z;
  flags : Z;
  codec : Z;
  sort_order : Z;
  name : cstring;
  topic : cstring;
  desc : cstring;
  password : list Z;
  players : array;
  subchannels : array;
  pl_privileges : array;
  parent : ptr;
  parent_id : Z;
  in_server : ptr
}.

(** [struct player] (player.h): the fields the channel module touches. *)
Record player := mk_player {
  in_chan : ptr;
  reg : ptr;
  global_flags : Z
}.

(** [struct player_channel_privilege]: the tag [priv_reg] says which member
    of the union [pl_or_reg] (a registration or a player pointer) is live;
    both members are pointers and share their storage. *)
Record player_channel_privilege := mk_priv {
  priv_ch : ptr;
  priv_reg : Z;
  pl_or_reg : ptr;
  priv_flags : Z
}.

(** The program state: one heap per object type, and the privileges handed
    to the database by [db_add_pl_chan_priv], latest first. *)
Record state := mk_state {
  chans : gmap addr channel;
  pls : gmap addr player;
  privs : gmap addr player_channel_privilege;
  db : list ptr
}.

(** ** What channel.c takes from other modules *)

(** The flag and tag constants of channel.h and player.h.  The headers are
    outside this development: the definitions take the values from this
    interface and the theorems hold for all of them. *)
Class constants := {
  CHANNEL_FLAG_UNREGISTERED : Z;
  CHANNEL_FLAG_SUBCHANNELS : Z;
  CHANNEL_FLAG_DEFAULT : Z;
  GLOBAL_FLAG_REGISTERED : Z;
  PL_CH_PRIV_REGISTERED : Z;
  PL_CH_PRIV_UNREGISTERED : Z
}.

(** The container of array.h, which channel.c only calls: the status of a
    successful insert, and what the three calls make of an array. *)
Class array_ops := {
  AR_OK : Z;
  ar_new : Z -> array;
  ar_insert : array -> ptr -> Z * array;
  ar_remove : array -> ptr -> array
}.

(** ** Dereferencing *)

Definition load {A : Type} (h : gmap addr A) (p : ptr) : exec A :=
  match p with
  | Some a => match h !! a with Some x => Done x | None => Undefined end
  | None => Undefined
  end.

Definition addr_of (p : ptr) : exec addr :=
  match p with
  | Some a => Done a
  | None => Undefined
  end.

Definition store_chan (s : state) (a : addr) (c : channel) : state :=
  {| chans := <[a := c]> (chans s); pls := pls s; privs := privs s; db := db s |}.

Definition store_pl (s : state) (a : addr) (p : player) : state :=
  {| chans := chans s; pls := <[a := p]> (pls s); privs := privs s; db := db s |}.

Definition store_priv (s : state) (a : addr) (p : player_channel_privilege) : state :=
  {| chans := chans s; pls := pls s; privs := <[a := p]> (privs s); db := db s |}.

Definition log_db (s : state) (p : ptr) : state :=
  {| chans := chans s; pls := pls s; privs := privs s; db := p :: db s |}.

(** Field assignments. *)
Definition set_parent (c : channel) (v : ptr) : channel :=
  {| id := id c; flags := flags c; codec := codec c; sort_order := sort_order c;
     name := name c; topic := topic c; desc := desc c; password := password c;
     players := players c; subchannels := subchannels c;
     pl_privileges := pl_privileges c; parent := v;
     parent_id := parent_id c; in_server := in_server c |}.

Definition set_players (c : channel) (v : array) : channel :=
  {| id := id c; flags := flags c; codec := codec c; sort_order := sort_order c;
     name := name c; topic := topic c; desc := desc c; password := password c;
     players := v; subchannels := subchannels c;
     pl_privileges := pl_privileges c; parent := parent c;
     parent_id := parent_id c; in_server := in_server c |}.

Definition set_subchannels (c : channel) (v : array) : channel :=
  {| id := id c; flags := flags c; codec := codec c; sort_order := sort_order c;
     name := name c; topic := topic c; desc := desc c; password := password c;
     players := players c; subchannels := v;
     pl_privileges := pl_privileges c; parent := parent c;
     parent_id := parent_id c; in_server := in_server c |}.

Definition set_pl_privileges (c : channel) (v : array) : channel :=
  {| id := id c; flags := flags c; codec := codec c; sort_order := sort_order c;
     name := name c; topic := topic c; desc := desc c; password := password c;
     players := players c; subchannels := subchannels c;
     pl_privileges := v; parent := parent c;
     parent_id := parent_id c; in_server := in_server c |}.

Definition set_in_chan (p : player) (v : ptr) : player :=
  {| in_chan := v; reg := reg p; global_flags := global_flags p |}.

(** ** Wire primitives *)

(** Modelled from the spec: [wu16], [wu32], [ru16] and [ru32] are defined
    outside channel.c; section 4.4 fixes the layout as big-endian
    and without padding.  A writer yields the bytes it stores at [*ptr]
    (which it then advances past them); a reader takes the buffer and the
    offset of [*ptr] in it and returns the value with the advanced offset. *)
Definition wu16 (v : Z) : list Z :=
  let v := to_u16 v in [Z.land (Z.shiftr v 8) 255; Z.land v 255].

Definition wu32 (v : Z) : list Z :=
  let v := to_u32 v in
  [Z.land (Z.shiftr v 24) 255; Z.land (Z.shiftr v 16) 255;
   Z.land (Z.shiftr v 8) 255; Z.land v 255].

(** Reading the byte at an offset of the buffer; outside it, the run is
    undefined. *)
Definition byte_at (data : list Z) (off : Z) : exec Z :=
  if off <? 0 then Undefined
  else match data !! Z.to_nat off with
       | Some b => Done (b mod 256)
       | None => Undefined
       end.

Definition ru16 (data : list Z) (off : Z) : exec (Z * Z) :=
  b0 ← byte_at data off;
  b1 ← byte_at data (off + 1);
  Done (Z.lor (Z.shiftl b0 8) b1, off + 2).

Definition ru32 (data : list Z) (off : Z) : exec (Z * Z) :=
  b0 ← byte_at data off;
  b1 ← byte_at data (off + 1);
  b2 ← byte_at data (off + 2);
  b3 ← byte_at data (off + 3);
  Done (Z.lor (Z.shiftl b0 24) (Z.lor (Z.shiftl b1 16) (Z.lor (Z.shiftl b2 8) b3)),
        off + 4).

(** ** libc strings *)

Definition strlen (s : cstring) : Z := Z.of_nat (length s).

(** [strcpy(ptr, s)] stores the bytes of [s] and the terminating NUL. *)
Definition strcpy (s : cstring) : list Z := s ++ [0].

(** [strndup(p, n)] reads from [p] up to the first NUL, and at most [n]
    bytes; [mem] is what the buffer holds from [p] on.  The copy is NULL
    when the allocation fails ([ok] is false). *)
Fixpoint strn_read (mem : list Z) (n : Z) : exec cstring :=
  if n <=? 0 then Done []
  else match mem with
       | [] => Undefined
       | b :: mem' =>
           if b mod 256 =? 0 then Done []
           else r ← strn_read mem' (n - 1); Done (b mod 256 :: r)
       end.

Definition strndup (ok : bool) (data : list Z) (off : Z) (n : Z)
  : exec (option cstring) :=
  if off <? 0 then Undefined
  else r ← strn_read (drop (Z.to_nat off) data) n;
       Done (if ok then Some r else None).

(** [strlen] of the result of [strndup]; of NULL it is undefined. *)
Definition strlen_of (s : option cstring) : exec Z :=
  match s with
  | Some s => Done (strlen s)
  | None => Undefined
  end.

(** [new_player_channel_privilege()] is defined outside channel.c: the
    record it hands out, before the caller fills it. *)
Class privilege_ops := {
  new_player_channel_privilege : player_channel_privilege
}.

Section channel.
Context `{!constants, !array_ops, !privilege_ops}.

(** ** Construction *)

(** [alloc k] tells whether the [k]-th allocation of the call succeeds:
    first the [calloc] of the structure, then the three [strdup]s.  The
    result is the content of the new structure, or [None] for NULL. *)
Definition new_channel (alloc : nat -> bool) (name topic desc : cstring)
    (flags codec sort_order max_users : Z) : option channel :=
  if negb (alloc 0%nat) then None
  else if negb (alloc 1%nat) || negb (alloc 2%nat) || negb (alloc 3%nat) then None
  else Some {|
    id := 0;
    flags := to_u16 flags;
    codec := to_u16 codec;
    sort_order := to_u16 sort_order;
    name := name;
    topic := topic;
    desc := desc;
    password := repeat 0 30;
    players := set_max_slots (ar_new 4) (to_u16 max_users);
    subchannels := ar_new 4;
    pl_privileges := ar_new 4;
    parent := NULL;
    parent_id := 0;
    in_server := NULL
  |}.

(** ** Flags and capacity *)

Definition ch_getflags (s : state) (ch : ptr) : exec Z :=
  c ← load (chans s) ch;
  match parent c with
  | None => Done (flags c)
  | Some _ =>
      p ← load (chans s) (parent c);
      let flags := flags p in
      let flags := Z.land flags (Z.lnot CHANNEL_FLAG_SUBCHANNELS) in
      let flags := Z.land flags (Z.lnot CHANNEL_FLAG_DEFAULT) in
      Done flags
  end.

Definition ch_isfull (s : state) (ch : ptr) : exec Z :=
  c ← load (chans s) ch;
  if negb (Z.land (flags c) CHANNEL_FLAG_DEFAULT =? 0)
  then Done (if used_slots (players c) =? to_size_t (-1) then 1 else 0)
  else Done (if used_slots (players c) >=? max_slots (players c) then 1 else 0).

(** ** The wire codec *)

Definition set_parent_id (c : channel) (v : Z) : channel :=
  {| id := id c; flags := flags c; codec := codec c; sort_order := sort_order c;
     name := name c; topic := topic c; desc := desc c; password := password c;
     players := players c; subchannels := subchannels c;
     pl_privileges := pl_privileges c; parent := parent c;
     parent_id := v; in_server := in_server c |}.

(** The result is the returned size with the bytes stored in [data]. *)
Definition channel_to_data (s : state) (ch : ptr) : exec (Z * list Z) :=
  c ← load (chans s) ch;
  let size := to_int (to_size_t (4 + 2 + 2 + 4 + 2 + 2
                + strlen (name c) + 1
                + strlen (topic c) + 1
                + strlen (desc c) + 1)) in
  pid ← match parent c with
        | None => Done 4294967295
        | Some _ => p ← load (chans s) (parent c); Done (id p)
        end;
  let data := wu32 (id c) ++ wu16 (flags c) ++ wu16 (codec c) ++ wu32 pid
              ++ wu16 (sort_order c) ++ wu16 (max_slots (players c))
              ++ strcpy (name c) ++ strcpy (topic c) ++ strcpy (desc c) in
  if Z.of_nat (length data) =? size then Done (size, data) else Undefined.

Definition channel_to_data_size (s : state) (ch : ptr) : exec Z :=
  c ← load (chans s) ch;
  Done (to_int (to_size_t (4 + 2 + 2 + 4 + 2 + 2
          + strlen (name c) + 1
          + strlen (topic c) + 1
          + strlen (desc c) + 1))).

(** [dst] is the channel [*dst] points to before the call; the result is
    the return value with the channel [*dst] points to afterwards.
    [alloc k] tells whether the [k]-th allocation succeeds: the three
    [strndup]s, then those of [new_channel]. *)
Definition channel_from_data (alloc : nat -> bool) (data : list Z) (len : Z)
    (dst : option channel) : exec (Z * option channel) :=
  let len := to_int len in
  let ptr := 0 + 4 in
  '(flags, ptr) ← ru16 data ptr;
  '(codec, ptr) ← ru16 data ptr;
  '(parent_id, ptr) ← ru32 data ptr;
  '(sort_order, ptr) ← ru16 data ptr;
  '(max_users, ptr) ← ru16 data ptr;
  name ← strndup (alloc 0%nat) data ptr (to_size_t (len - ptr - 3));
  n ← strlen_of name;
  let ptr := ptr + (n + 1) in
  topic ← strndup (alloc 1%nat) data ptr (to_size_t (len - ptr - 2));
  n ← strlen_of topic;
  let ptr := ptr + (n + 1) in
  desc ← strndup (alloc 2%nat) data ptr (to_size_t (len - ptr - 1));
  n ← strlen_of desc;
  let ptr := ptr + (n + 1) in
  match name, topic, desc with
  | Some name, Some topic, Some desc =>
      let dst := new_channel (fun k => alloc (3 + k)%nat) name topic desc
                   flags codec sort_order max_users in
      dst ← (if negb (parent_id =? 4294967295)
             then match dst with
                  | Some c => Done (Some (set_parent_id c parent_id))
                  | None => Undefined
                  end
             else Done dst);
      Done (to_size_t ptr, dst)
  | _, _, _ => Done (0, dst)
  end.


(** ** The hierarchy *)

Definition channel_remove_subchannel (s : state) (ch subchannel : ptr)
  : exec (Z * state) :=
  sc ← load (chans s) subchannel;
  if negb (bool_decide (ch = parent sc)) then Done (0, s)
  else match ch with
  | None => Done (0, s)
  | Some a =>
      c ← load (chans s) ch;
      let s := store_chan s a
                 (set_subchannels c (ar_remove (subchannels c) subchannel)) in
      sa ← addr_of subchannel;
      sc ← load (chans s) subchannel;
      let s := store_chan s sa (set_parent sc NULL) in
      Done (1, s)
  end.

Definition channel_add_subchannel (s : state) (ch subchannel : ptr)
  : exec (Z * state) :=
  f ← ch_getflags s ch;
  if Z.land f CHANNEL_FLAG_SUBCHANNELS =? 0 then Done (0, s)
  else
    sc ← load (chans s) subchannel;
    s ← (if negb (bool_decide (parent sc = NULL))
         then r ← channel_remove_subchannel s (parent sc) subchannel; Done r.2
         else Done s);
    sa ← addr_of subchannel;
    sc ← load (chans s) subchannel;
    let s := store_chan s sa (set_parent sc ch) in
    a ← addr_of ch;
    c ← load (chans s) ch;
    let s := store_chan s a
               (set_subchannels c (ar_insert (subchannels c) subchannel).2) in
    Done (1, s).

(** ** Membership *)

Definition add_player_to_channel (s : state) (chan pl : ptr) : exec (Z * state) :=
  full ← ch_isfull s chan;
  if negb (full =? 0) then Done (0, s)
  else
    a ← addr_of chan;
    c ← load (chans s) chan;
    let r := ar_insert (players c) pl in
    let s := store_chan s a (set_players c r.2) in
    if r.1 =? AR_OK then
      pa ← addr_of pl;
      p ← load (pls s) pl;
      Done (1, store_pl s pa (set_in_chan p chan))
    else Done (0, s).

(** ** Privileges *)

Definition add_player_channel_privilege (s : state) (ch priv : ptr) : exec state :=
  a ← addr_of ch;
  c ← load (chans s) ch;
  Done (store_chan s a (set_pl_privileges c (ar_insert (pl_privileges c) priv).2)).

(** The [ar_each] loop of [get_player_channel_privilege] over the pointers
    still to visit: the first privilege that matches, if any.  [pl] is only
    dereferenced for a record tagged as registered. *)
Fixpoint find_privilege (s : state) (pl : ptr) (l : list ptr) : exec (option ptr) :=
  match l with
  | [] => Done None
  | tmp_priv :: l' =>
      pr ← load (privs s) tmp_priv;
      hit ← (if priv_reg pr =? PL_CH_PRIV_REGISTERED
             then p ← load (pls s) pl; Done (bool_decide (pl_or_reg pr = reg p))
             else Done false);
      if hit : bool return exec (option ptr) then Done (Some tmp_priv)
      else if (priv_reg pr =? PL_CH_PRIV_UNREGISTERED)
              && bool_decide (pl_or_reg pr = pl)
      then Done (Some tmp_priv)
      else find_privilege s pl l'
  end.

(** The new record lives at an address no privilege occupies yet.
    [db_add_pl_chan_priv] is the persistence hook: the call reads
    [tmp_ch->in_server->conf] and is recorded in [db]. *)
Definition get_player_channel_privilege (s : state) (pl ch : ptr)
  : exec (ptr * state) :=
  c ← load (chans s) ch;
  let tmp_ch := if negb (bool_decide (parent c = NULL)) then parent c else ch in
  tc ← load (chans s) tmp_ch;
  found ← find_privilege s pl (slots (pl_privileges tc));
  match found return exec (ptr * state) with
  | Some tmp_priv => Done (tmp_priv, s)
  | None =>
      let a := fresh (dom (privs s)) in
      let tmp_priv : ptr := Some a in
      let pr := new_player_channel_privilege in
      let pr := {| priv_ch := tmp_ch; priv_reg := priv_reg pr;
                   pl_or_reg := pl_or_reg pr; priv_flags := priv_flags pr |} in
      p ← load (pls s) pl;
      r ← (if negb (Z.land (global_flags p) GLOBAL_FLAG_REGISTERED =? 0)
           return exec state then
             let pr := {| priv_ch := priv_ch pr; priv_reg := PL_CH_PRIV_REGISTERED;
                          pl_or_reg := reg p; priv_flags := priv_flags pr |} in
             let s := store_priv s a pr in
             if Z.land (flags tc) CHANNEL_FLAG_UNREGISTERED =? 0 then
               conf ← addr_of (in_server tc);
               Done (log_db s tmp_priv)
             else Done s
           else
             let pr := {| priv_ch := priv_ch pr; priv_reg := PL_CH_PRIV_UNREGISTERED;
                          pl_or_reg := pl; priv_flags := priv_flags pr |} in
             Done (store_priv s a pr));
      s ← add_player_channel_privilege r tmp_ch tmp_priv;
      Done (tmp_priv, s)
  end.

(** ** Notions used in the statements *)

(** The flags a subchannel derives from the stored flags [f] of its parent. *)
Definition inherited (f : Z) : Z :=
  Z.land (Z.land f (Z.lnot CHANNEL_FLAG_SUBCHANNELS)) (Z.lnot CHANNEL_FLAG_DEFAULT).

(** The state after a successful detach of [sub] from [old], whose records
    were [sc] and [oc]. *)
Definition detached (s : state) (old sub : addr) (oc sc : channel) : state :=
  let oc' := set_subchannels oc (ar_remove (subchannels oc) (Some sub)) in
  let s1 := store_chan s old oc' in
  store_chan s1 sub (set_parent (if decide (old = sub) then oc' else sc) NULL).

(** The encoded size as section 4.4 words it: 16 fixed bytes and the three
    strings with their terminators. *)
Definition wire_size (c : channel) : Z :=
  16 + (strlen (name c) + 1) + (strlen (topic c) + 1) + (strlen (desc c) + 1).

(** A string as [strdup] yields it: bytes, none of them NUL. *)
Definition cstring_ok (s : cstring) : bool :=
  forallb (fun b => (0 <? b) && (b <? 256)) s.

Definition is_u16 (x : Z) : bool := (0 <=? x) && (x <? 2 ^ 16).

(** A valid channel: the fields the wire carries are in the range of their
    type ([max_slots] is set from a [uint16_t] by [new_channel]), the
    strings are C strings, and the parent, if any, is a live channel whose
    id is an id (not the 0xFFFFFFFF that stands for no parent). *)
Definition valid_channel (s : state) (c : channel) : bool :=
  is_u16 (flags c) && is_u16 (codec c) && is_u16 (sort_order c)
  && is_u16 (max_slots (players c))
  && cstring_ok (name c) && cstring_ok (topic c) && cstring_ok (desc c)
  && match parent c with
     | None => true
     | Some pa =>
         match chans s !! pa with
         | Some p => (0 <=? id p) && (id p <? 4294967295)
         | None => false
         end
     end.

(** What decoding leaves in [parent_id]: the id of the parent, or the 0 of
    [calloc] when there is none. *)
Definition wire_parent_id (s : state) (c : channel) : Z :=
  match parent c with
  | None => 0
  | Some pa => match chans s !! pa with Some p => id p | None => 0 end
  end.

(** The channel that owns the privileges of [ch]: its parent if it has
    one, else [ch] itself; and the pointers that channel holds. *)
Definition owner (s : state) (ch : ptr) : exec ptr :=
  c ← load (chans s) ch;
  Done (if negb (bool_decide (parent c = NULL)) then parent c else ch).

Definition privileges_of (s : state) (ch : ptr) : exec (list ptr) :=
  o ← owner s ch;
  tc ← load (chans s) o;
  Done (slots (pl_privileges tc)).

(** The two tests of the loop of [get_player_channel_privilege] on one
    pointer. *)
Definition matches (s : state) (pl q : ptr) : exec bool :=
  pr ← load (privs s) q;
  hit ← (if priv_reg pr =? PL_CH_PRIV_REGISTERED
         then p ← load (pls s) pl; Done (bool_decide (pl_or_reg pr = reg p))
         else Done false);
  Done (hit || ((priv_reg pr =? PL_CH_PRIV_UNREGISTERED)
                && bool_decide (pl_or_reg pr = pl))).

(** The record [get_player_channel_privilege] builds for the player [p] at
    [pl] when it finds none in the channel at [o]. *)
Definition built_privilege (o pl : ptr) (p : player) : player_channel_privilege :=
  if negb (Z.land (global_flags p) GLOBAL_FLAG_REGISTERED =? 0)
  then {| priv_ch := o; priv_reg := PL_CH_PRIV_REGISTERED; pl_or_reg := reg p;
          priv_flags := priv_flags new_player_channel_privilege |}
  else {| priv_ch := o; priv_reg := PL_CH_PRIV_UNREGISTERED; pl_or_reg := pl;
          priv_flags := priv_flags new_player_channel_privilege |}.

(** [n] calls in a row for one player and one channel. *)
Fixpoint repeat_get (n : nat) (s : state) (pl ch : ptr) : exec state :=
  match n with
  | O => Done s
  | S n => r ← get_player_channel_privilege s pl ch; repeat_get n r.2 pl ch
  end.

(** A state in which the call for [pl] and [ch] dereferences live objects
    only: the channel, its owner, the player, the privileges the owner
    holds, and the server when the new record is to be persisted. *)
Definition resolvable (s : state) (pl ch : ptr) : Prop :=
  exists o tc p,
    owner s ch = Done o /\ load (chans s) o = Done tc /\
    load (pls s) pl = Done p /\
    Forall (fun q => exists pr, load (privs s) q = Done pr)
           (slots (pl_privileges tc)) /\
    (Z.land (global_flags p) GLOBAL_FLAG_REGISTERED <> 0 ->
     Z.land (flags tc) CHANNEL_FLAG_UNREGISTERED = 0 ->
     in_server tc <> NULL).

(** The bytes before the first NUL of a piece of a buffer, all of them if
    it holds none. *)
Fixpoint cut_at_nul (mem : list Z) : cstring :=
  match mem with
  | [] => []
  | b :: mem' => if b mod 256 =? 0 then [] else b mod 256 :: cut_at_nul mem'
  end.

End channel.

(** The contract of the container (section 6 of the specification): an
    insert adds the pointer to those the array holds, or fails and leaves
    them as they are. *)
Class array_laws `{!array_ops} : Prop := {
  ar_insert_slots a x :
    slots (ar_insert a x).2 ≡ₚ x :: slots a \/ slots (ar_insert a x).2 = slots a
}.

(** * The rest of channel.c *)

(** Two more constants of channel.h. *)
Class more_constants := {
  CHANNEL_FLAG_PASSWORD : Z;
  CODEC_SPEEX_19_6 : Z
}.

Section more.
Context `{!constants, !more_constants, !array_ops, !privilege_ops}.

(** The literals of [new_predef_channel], as bytes. *)
Definition channel_name_literal : cstring :=
  [67; 104; 97; 110; 110; 101; 108; 32; 110; 97; 109; 101].
Definition channel_topic_literal : cstring :=
  [67; 104; 97; 110; 110; 101; 108; 32; 116; 111; 112; 105; 99].
Definition channel_description_literal : cstring :=
  [67; 104; 97; 110; 110; 101; 108; 32; 100; 101; 115; 99; 114; 105; 112;
   116; 105; 111; 110].

Definition new_predef_channel (alloc : nat -> bool) : option channel :=
  let flags := to_u16 (Z.land 0 (Z.lnot CHANNEL_FLAG_UNREGISTERED)) in
  new_channel alloc channel_name_literal channel_topic_literal
    channel_description_literal flags CODEC_SPEEX_19_6 0 16.

(** [ch_getpass] calls itself on the parent.  [fuel] bounds the depth of
    the calls: [None] is a run that needs more.  The result is the password
    buffer of the channel the walk ends at, or [None] for NULL. *)
Fixpoint ch_getpass (fuel : nat) (s : state) (ch : ptr)
  : option (exec (option (list Z))) :=
  match fuel with
  | O => None
  | S fuel =>
      match load (chans s) ch with
      | Undefined => Some Undefined
      | Done c =>
          if negb (bool_decide (parent c = NULL))
          then ch_getpass fuel s (parent c)
          else if negb (Z.land (flags c) CHANNEL_FLAG_PASSWORD =? 0)
          then Some (Done (Some (password c)))
          else Some (Done None)
      end
  end.

(** ** Notions used in the statements *)

(** The bytes of a channel on the wire, with [pid] in the parent field. *)
Definition wire_bytes (c : channel) (pid : Z) : list Z :=
  wu32 (id c) ++ wu16 (flags c) ++ wu16 (codec c) ++ wu32 pid
  ++ wu16 (sort_order c) ++ wu16 (max_slots (players c))
  ++ strcpy (name c) ++ strcpy (topic c) ++ strcpy (desc c).

(** [walks_to s n ch t]: from [ch], [n] steps along the parent pointers end
    at the top channel [t]. *)
Inductive walks_to (s : state) : nat -> ptr -> channel -> Prop :=
| walk_top a c :
    chans s !! a = Some c -> parent c = NULL -> walks_to s 0 (Some a) c
| walk_up n a c t :
    chans s !! a = Some c -> parent c <> NULL ->
    walks_to s n (parent c) t -> walks_to s (S n) (Some a) t.

(** What [ch_getpass] returns on a top channel. *)
Definition own_password (c : channel) : option (list Z) :=
  if negb (Z.land (flags c) CHANNEL_FLAG_PASSWORD =? 0)
  then Some (password c) else None.

End more.

(** ** A sample environment

    The general statements below hold for all values of the constants and
    for every container; the closed examples run on this environment. *)

(** Modelled from the spec: the values of the constants of channel.h and
    player.h.  Section 3 makes the channel flags a bitset, and the privilege
    tags the two cases of a tagged union: here the flags are distinct bits
    and the tags differ. *)
Definition sample_constants : constants := {|
  CHANNEL_FLAG_UNREGISTERED := 1;
  CHANNEL_FLAG_SUBCHANNELS := 8;
  CHANNEL_FLAG_DEFAULT := 16;
  GLOBAL_FLAG_REGISTERED := 1;
  PL_CH_PRIV_REGISTERED := 1;
  PL_CH_PRIV_UNREGISTERED := 0
|}.

(** Modelled from the spec: the container of array.c.  Section 6 gives its
    contract: insert fails if full and returns a
    status code, remove is a no-op if the element is absent, iteration is
    in insertion order, and the counters are [used_slots] and [max_slots].
    A new array has no bound of its own until its owner sets one. *)
Definition list_array_ops : array_ops := {|
  AR_OK := 1;
  ar_new := fun _ => {| used_slots := 0; max_slots := SIZE_MAX; slots := [] |};
  ar_insert := fun a x =>
    if used_slots a >=? max_slots a then (0, a)
    else (1, {| used_slots := used_slots a + 1; max_slots := max_slots a;
                slots := slots a ++ [x] |});
  ar_remove := fun a x =>
    if bool_decide (x ∈ slots a)
    then {| used_slots := used_slots a - 1; max_slots := max_slots a;
            slots := filter (fun y => y ≠ x) (slots a) |}
    else a
|}.

(** Modelled from the spec: [new_player_channel_privilege], of the
    privilege module; a new record carries no identity and the lowest
    level. *)
Definition zero_privilege_ops : privilege_ops := {|
  new_player_channel_privilege :=
    {| priv_ch := NULL; priv_reg := 0; pl_or_reg := NULL; priv_flags := 0 |}
|}.

(** Every allocation succeeds. *)
Definition alloc_ok : nat -> bool := fun _ => true.

(** ** Sample states *)

Definition sample_array (used max : Z) (l : list ptr) : array :=
  {| used_slots := used; max_slots := max; slots := l |}.

Definition sample_channel (i f : Z) (nm : cstring) (pa : ptr) (subs : list ptr)
    (pr : list ptr) (pls : array) : channel :=
  {| id := i; flags := f; codec := 1; sort_order := 0;
     name := nm; topic := [116]; desc := [100];
     password := repeat 0 30;
     players := pls;
     subchannels := sample_array (Z.of_nat (length subs)) SIZE_MAX subs;
     pl_privileges := sample_array (Z.of_nat (length pr)) SIZE_MAX pr;
     parent := pa; parent_id := 0; in_server := Some 9%positive |}.

Definition state_of (l : list (addr * channel)) : state :=
  {| chans := list_to_map l; pls := ∅; privs := ∅; db := [] |}.

(** The channel of the decoding scenario of section 8: id 5, SUBCHANNELS,
    codec 1, no parent, ten users, "Lobby", "t", "d". *)
Definition lobby : channel :=
  sample_channel 5 8 [76; 111; 98; 98; 121] NULL [] [] (sample_array 0 10 []).

Definition lobby_state : state := state_of [(1%positive, lobby)].

(** The 26 bytes of [lobby]. *)
Definition lobby_bytes : list Z :=
  [0; 0; 0; 5; 0; 8; 0; 1; 255; 255; 255; 255; 0; 0; 0; 10;
   76; 111; 98; 98; 121; 0; 116; 0; 100; 0].

(** A header followed by eight bytes, none of them NUL. *)
Definition unterminated : list Z :=
  [0; 0; 0; 5; 0; 8; 0; 1; 255; 255; 255; 255; 0; 0; 0; 10;
   76; 111; 98; 98; 121; 33; 33; 33].

(** What [new_channel] makes of the strings and numbers it is given, with
    the sample container. *)
Definition decoded (f m : Z) (nm tp ds : cstring) : channel :=
  {| id := 0; flags := f; codec := 1; sort_order := 0;
     name := nm; topic := tp; desc := ds;
     password := repeat 0 30;
     players := sample_array 0 m [];
     subchannels := sample_array 0 SIZE_MAX [];
     pl_privileges := sample_array 0 SIZE_MAX [];
     parent := NULL; parent_id := 0; in_server := NULL |}.

(** Four channels: 1 is a top channel (SUBCHANNELS, DEFAULT and bit 2) with
    the subchannel 2; 3 is a top channel (SUBCHANNELS) with the subchannel
    4; 5 is a top channel without SUBCHANNELS. *)
Definition no_players : array := sample_array 0 16 [].

Definition tree_state : state :=
  state_of
    [(1%positive, sample_channel 1 28 [65] NULL [Some 2%positive] [] no_players);
     (2%positive, sample_channel 2 0 [66] (Some 1%positive) [] [] no_players);
     (3%positive, sample_channel 3 8 [67] NULL [Some 4%positive] [] no_players);
     (4%positive, sample_channel 4 0 [68] (Some 3%positive) [] [] no_players);
     (5%positive, sample_channel 5 0 [69] NULL [] [] no_players)].

(** The same channels before any of them was attached. *)
Definition flat_state : state :=
  state_of
    [(1%positive, sample_channel 1 28 [65] NULL [] [] no_players);
     (2%positive, sample_channel 2 0 [66] NULL [] [] no_players);
     (3%positive, sample_channel 3 8 [67] NULL [] [] no_players);
     (4%positive, sample_channel 4 0 [68] NULL [] [] no_players);
     (5%positive, sample_channel 5 0 [69] NULL [] [] no_players)].

(** The default channel of the scenario of section 8: a limit of 10, and
    the 1000 players 1 to 1000 in it.  And a channel without DEFAULT that
    holds two players, its limit. *)
Definition crowd : list addr := Pos.of_nat <$> seq 1 1000.

Definition default_state : state :=
  {| chans := list_to_map
       [(1%positive,
         sample_channel 1 16 [65] NULL [] []
           (sample_array 1000 10 (Some <$> crowd)))];
     pls := list_to_map
       ((fun a => (a, {| in_chan := Some 1%positive; reg := NULL;
                         global_flags := 0 |})) <$> crowd);
     privs := ∅;
     db := [] |}.

Definition full_state : state :=
  state_of [(1%positive,
             sample_channel 1 0 [65] NULL [] []
               (sample_array 2 2 [Some 1%positive; Some 2%positive]))].

(** A top channel with a subchannel and no privileges yet, a registered
    player 1 and an unregistered player 2. *)
Definition lounge_state : state :=
  {| chans := list_to_map
       [(1%positive, sample_channel 1 8 [65] NULL [Some 2%positive] [] no_players);
        (2%positive, sample_channel 2 0 [66] (Some 1%positive) [] [] no_players)];
     pls := list_to_map
       [(1%positive, {| in_chan := NULL; reg := Some 7%positive; global_flags := 1 |});
        (2%positive, {| in_chan := NULL; reg := NULL; global_flags := 0 |})];
     privs := ∅;
     db := [] |}.

(** ** More of the sample environment *)

(** Modelled from the spec: the values of two more constants of channel.h;
    PASSWORD is a bit of its own. *)
Definition sample_more_constants : more_constants := {|
  CHANNEL_FLAG_PASSWORD := 4;
  CODEC_SPEEX_19_6 := 12
|}.

(** The predefined channel, alone in a state. *)
Definition predef_state : state :=
  match @new_predef_channel sample_constants sample_more_constants
          list_array_ops alloc_ok with
  | Some c => state_of [(1%positive, c)]
  | None => state_of []
  end.

(** A channel below a parent whose id is 0xFFFFFFFF. *)
Definition sentinel_state : state :=
  state_of
    [(1%positive, sample_channel 4294967295 8 [65] NULL [Some 2%positive] []
                    no_players);
     (2%positive, sample_channel 2 0 [66] (Some 1%positive) [] [] no_players)].

(** A subchannel that stores DEFAULT itself and holds two players, its
    limit. *)
Definition odd_state : state :=
  state_of
    [(1%positive, sample_channel 1 8 [65] NULL [Some 2%positive] [] no_players);
     (2%positive,
      sample_channel 2 16 [66] (Some 1%positive) [] []
        (sample_array 2 2 [Some 1%positive; Some 2%positive]))].

(** The three [strndup]s succeed, the [calloc] of [new_channel] fails. *)
Definition alloc_strings_only : nat -> bool := fun k => (k <? 3)%nat.

(** [lounge_state] once the registered player 1 has been served. *)
Definition served_state : state :=
  {| chans := list_to_map
       [(1%positive, sample_channel 1 8 [65] NULL [Some 2%positive]
                       [Some 1%positive] no_players);
        (2%positive, sample_channel 2 0 [66] (Some 1%positive) [] [] no_players)];
     pls := pls lounge_state;
     privs := list_to_map
       [(1%positive, {| priv_ch := Some 1%positive; priv_reg := 1;
                        pl_or_reg := Some 7%positive; priv_flags := 0 |})];
     db := [Some 1%positive] |}.

(** * Properties *)

Section properties.
Context `{!constants, !array_ops, !privilege_ops}.

(** ** Dereferencing *)

Lemma load_Some {A} (h : gmap addr A) a x :
  h !! a = Some x -> load h (Some a) = Done x.
Proof. intros E. unfold load. by rewrite E. Qed.

Lemma load_Done {A} (h : gmap addr A) p x :
  load h p = Done x -> exists a, p = Some a /\ h !! a = Some x.
Proof.
  destruct p as [a|]; simpl; [|discriminate].
  destruct (h !! a) eqn:E; [|discriminate].
  intros [= ->]. eauto.
Qed.

(** ** Flag inheritance *)

Lemma land_cleared f m : Z.land (Z.land f (Z.lnot m)) m = 0.
Proof.
  rewrite <- Z.land_assoc, (Z.land_comm (Z.lnot m)), Z.land_lnot_diag.
  apply Z.land_0_r.
Qed.

Lemma inherited_no_subchannels f : Z.land (inherited f) CHANNEL_FLAG_SUBCHANNELS = 0.
Proof.
  unfold inherited.
  rewrite <- (Z.land_assoc f), (Z.land_comm (Z.lnot _) (Z.lnot _)), Z.land_assoc.
  apply land_cleared.
Qed.

Lemma inherited_no_default f : Z.land (inherited f) CHANNEL_FLAG_DEFAULT = 0.
Proof. apply land_cleared. Qed.

Lemma inherited_bits f i :
  Z.testbit (inherited f) i =
  Z.testbit f i && negb (Z.testbit CHANNEL_FLAG_SUBCHANNELS i)
                && negb (Z.testbit CHANNEL_FLAG_DEFAULT i).
Proof.
  unfold inherited. destruct (Z.neg_nonneg_cases i) as [Hi|Hi].
  - by rewrite !Z.testbit_neg_r.
  - rewrite !Z.land_spec, !Z.lnot_spec; auto.
Qed.

Lemma ch_getflags_top s a c :
  chans s !! a = Some c -> parent c = NULL ->
  ch_getflags s (Some a) = Done (flags c).
Proof.
  intros E P. unfold ch_getflags. rewrite (load_Some _ _ _ E). simpl.
  by rewrite P.
Qed.

Lemma ch_getflags_sub s a c pa p :
  chans s !! a = Some c -> parent c = Some pa -> chans s !! pa = Some p ->
  ch_getflags s (Some a) = Done (inherited (flags p)).
Proof.
  intros E P E'. unfold ch_getflags. rewrite (load_Some _ _ _ E). simpl.
  rewrite P, (load_Some _ _ _ E'). reflexivity.
Qed.

(** A channel whose effective flags carry SUBCHANNELS is a top channel, and
    the flags are its own. *)
Lemma ch_getflags_subchannels_top s ch f :
  ch_getflags s ch = Done f -> Z.land f CHANNEL_FLAG_SUBCHANNELS <> 0 ->
  exists a c, ch = Some a /\ chans s !! a = Some c /\ parent c = NULL /\ f = flags c.
Proof.
  unfold ch_getflags. intros G N.
  destruct (load (chans s) ch) as [c|] eqn:L; [|discriminate].
  apply load_Done in L as (a & -> & E). simpl in G.
  destruct (parent c) as [pa|] eqn:P.
  - destruct (load (chans s) (Some pa)) as [p|]; [|discriminate].
    simpl in G. injection G as <-.
    exfalso. apply N. apply inherited_no_subchannels.
  - injection G as <-. eauto 10.
Qed.

(** C8.  [ch_getflags] of a channel with a parent is the parent's stored
    flags with the SUBCHANNELS and DEFAULT bits cleared (every other bit is
    the parent's); of a channel without a parent it is the channel's own
    stored flags. *)
Theorem ch_getflags_inheritance s a c :
  chans s !! a = Some c ->
  (parent c = NULL -> ch_getflags s (Some a) = Done (flags c)) /\
  (forall pa p, parent c = Some pa -> chans s !! pa = Some p ->
     exists f, ch_getflags s (Some a) = Done f /\
       f = Z.land (Z.land (flags p) (Z.lnot CHANNEL_FLAG_SUBCHANNELS))
                  (Z.lnot CHANNEL_FLAG_DEFAULT) /\
       Z.land f CHANNEL_FLAG_SUBCHANNELS = 0 /\
       Z.land f CHANNEL_FLAG_DEFAULT = 0 /\
       forall i, Z.testbit f i =
         Z.testbit (flags p) i && negb (Z.testbit CHANNEL_FLAG_SUBCHANNELS i)
                               && negb (Z.testbit CHANNEL_FLAG_DEFAULT i)).
Proof.
  intros E. split.
  - intros P. by apply ch_getflags_top.
  - intros pa p P E'. exists (inherited (flags p)).
    split; [by eapply ch_getflags_sub|].
    split; [reflexivity|].
    split; [apply inherited_no_subchannels|].
    split; [apply inherited_no_default|].
    apply inherited_bits.
Qed.

(** ** Capacity *)

Lemma to_size_t_m1 : to_size_t (-1) = SIZE_MAX.
Proof. reflexivity. Qed.

(** On a channel whose stored flags include DEFAULT the test is the
    comparison of [used_slots] with [(size_t) -1]. *)
Lemma ch_isfull_default_test s a c :
  chans s !! a = Some c ->
  Z.land (flags c) CHANNEL_FLAG_DEFAULT <> 0 ->
  ch_isfull s (Some a)
  = Done (if used_slots (players c) =? SIZE_MAX then 1 else 0).
Proof.
  intros E D. unfold ch_isfull. rewrite (load_Some _ _ _ E). simpl.
  apply Z.eqb_neq in D. rewrite D. simpl. by rewrite to_size_t_m1.
Qed.

(** C4.  On a channel whose stored flags include DEFAULT, [ch_isfull]
    returns 0 whatever [max_slots] is and however many members the channel
    counts, below, at or above that limit: at every [used_slots] an array
    can reach, [(size_t) -1] pointers being more than memory holds. *)
Theorem ch_isfull_default_never_full s a c :
  chans s !! a = Some c ->
  Z.land (flags c) CHANNEL_FLAG_DEFAULT <> 0 ->
  0 <= used_slots (players c) < SIZE_MAX ->
  ch_isfull s (Some a) = Done 0.
Proof.
  intros E D U. rewrite (ch_isfull_default_test _ _ _ E D).
  by rewrite (proj2 (Z.eqb_neq _ SIZE_MAX)) by lia.
Qed.

Lemma ch_isfull_limited s a c :
  chans s !! a = Some c ->
  Z.land (flags c) CHANNEL_FLAG_DEFAULT = 0 ->
  ch_isfull s (Some a) =
    Done (if used_slots (players c) >=? max_slots (players c) then 1 else 0).
Proof.
  intros E D. unfold ch_isfull. rewrite (load_Some _ _ _ E). simpl.
  apply Z.eqb_eq in D. by rewrite D.
Qed.

(** C6.  On a channel without DEFAULT whose [max_slots] is [N] and whose
    [used_slots] is [N], [add_player_to_channel] returns 0 and leaves the
    state as it was: the membership, its count included, is unchanged. *)
Theorem add_player_to_channel_full s a c pl N :
  chans s !! a = Some c ->
  Z.land (flags c) CHANNEL_FLAG_DEFAULT = 0 ->
  max_slots (players c) = N ->
  used_slots (players c) = N ->
  exists s', add_player_to_channel s (Some a) pl = Done (0, s') /\
    s' = s /\
    (players <$> chans s' !! a) = Some (players c) /\
    (used_slots <$> (players <$> chans s' !! a)) = Some N.
Proof.
  intros E D M U. exists s.
  split; [|by rewrite E; simpl; rewrite U].
  unfold add_player_to_channel.
  rewrite (ch_isfull_limited _ _ _ E D), M, U. simpl.
  by rewrite (proj2 (Z.geb_le N N)) by lia.
Qed.

(** ** The hierarchy *)

(** C10.  When [ch] has a parent, [channel_add_subchannel] on [ch] returns
    0 and leaves the state as it was, whatever [subchannel] is: the
    effective flags of [ch] never carry SUBCHANNELS. *)
Theorem channel_add_subchannel_below_top s a c pa p subchannel :
  chans s !! a = Some c ->
  parent c = Some pa ->
  chans s !! pa = Some p ->
  Z.land (inherited (flags p)) CHANNEL_FLAG_SUBCHANNELS = 0 /\
  ch_getflags s (Some a) = Done (inherited (flags p)) /\
  channel_add_subchannel s (Some a) subchannel = Done (0, s).
Proof.
  intros E P E'.
  split; [apply inherited_no_subchannels|].
  split; [by eapply ch_getflags_sub|].
  unfold channel_add_subchannel.
  rewrite (ch_getflags_sub _ _ _ _ _ E P E'). simpl.
  by rewrite inherited_no_subchannels.
Qed.

Lemma channel_add_subchannel_refused s ch subchannel f :
  ch_getflags s ch = Done f ->
  Z.land f CHANNEL_FLAG_SUBCHANNELS = 0 ->
  channel_add_subchannel s ch subchannel = Done (0, s).
Proof.
  intros G Z0. unfold channel_add_subchannel. rewrite G. simpl.
  by rewrite Z0.
Qed.

Lemma channel_remove_subchannel_own s old sub oc sc :
  chans s !! sub = Some sc ->
  parent sc = Some old ->
  chans s !! old = Some oc ->
  channel_remove_subchannel s (Some old) (Some sub)
  = Done (1, detached s old sub oc sc).
Proof.
  intros Es P Eo. unfold channel_remove_subchannel.
  rewrite (load_Some _ _ _ Es). simpl. rewrite P.
  rewrite bool_decide_eq_true_2 by done. simpl.
  rewrite Eo. simpl.
  unfold detached. destruct (decide (old = sub)) as [->|N].
  - rewrite lookup_insert_eq. reflexivity.
  - rewrite lookup_insert_ne by done. rewrite Es. reflexivity.
Qed.


(** [channel_add_subchannel], once the flag test has passed, on a child
    that has no parent yet. *)
Lemma channel_add_subchannel_fresh s a c sub sc :
  chans s !! a = Some c ->
  parent c = NULL ->
  Z.land (flags c) CHANNEL_FLAG_SUBCHANNELS <> 0 ->
  chans s !! sub = Some sc ->
  parent sc = NULL ->
  a <> sub ->
  channel_add_subchannel s (Some a) (Some sub)
  = Done (1, store_chan (store_chan s sub (set_parent sc (Some a))) a
               (set_subchannels c (ar_insert (subchannels c) (Some sub)).2)).
Proof.
  intros Ea Pa F Es Ps N. unfold channel_add_subchannel.
  rewrite (ch_getflags_top _ _ _ Ea Pa). simpl.
  apply Z.eqb_neq in F. rewrite F.
  rewrite Es. simpl. rewrite Ps. simpl.
  rewrite Es. simpl. rewrite lookup_insert_ne by done. rewrite Ea.
  reflexivity.
Qed.

#[local] Arguments channel_remove_subchannel : simpl never.

(** [channel_add_subchannel], once the flag test has passed, on a child
    that hangs below [old]: the detach, then the two assignments. *)
Lemma channel_add_subchannel_moved s a c sub sc old oc :
  chans s !! a = Some c ->
  parent c = NULL ->
  Z.land (flags c) CHANNEL_FLAG_SUBCHANNELS <> 0 ->
  chans s !! sub = Some sc ->
  parent sc = Some old ->
  chans s !! old = Some oc ->
  let oc' := set_subchannels oc (ar_remove (subchannels oc) (Some sub)) in
  let s1 := detached s old sub oc sc in
  let s2 := store_chan s1 sub
              (set_parent (if decide (old = sub) then oc' else sc) (Some a)) in
  let c' := if decide (old = a) then oc' else c in
  channel_add_subchannel s (Some a) (Some sub)
  = Done (1, store_chan s2 a
               (set_subchannels c' (ar_insert (subchannels c') (Some sub)).2)).
Proof.
  intros Ea Pa F Es Ps Eo oc' s1 s2 c'.
  assert (a <> sub) as N by (unfold NULL in *; intros ->; congruence).
  unfold channel_add_subchannel.
  rewrite (ch_getflags_top _ _ _ Ea Pa). simpl.
  apply Z.eqb_neq in F. rewrite F.
  rewrite Es. simpl. rewrite Ps. simpl.
  rewrite (channel_remove_subchannel_own _ _ _ _ _ Es Ps Eo). simpl.
  rewrite lookup_insert_eq. simpl.
  rewrite lookup_insert_ne by done.
  rewrite lookup_insert_ne by done.
  subst c'. destruct (decide (old = a)) as [->|No].
  - rewrite lookup_insert_eq. reflexivity.
  - rewrite lookup_insert_ne by done. rewrite Ea. reflexivity.
Qed.

(** C7.  Without SUBCHANNELS in the effective flags of [ch],
    [channel_add_subchannel] returns 0 and the state, hence the subchannel
    set of [ch] and the parent of the child, is as before.  With it, and a
    child that hangs below [old]: the child is first detached from [old]
    ([channel_remove_subchannel] succeeds: the child leaves the subchannels
    of [old] and loses its parent), then its parent is [ch] and it is
    inserted into the subchannels of [ch]; 1 is returned and nothing else
    changes. *)
Theorem channel_add_subchannel_spec s ch subchannel f :
  ch_getflags s ch = Done f ->
  (Z.land f CHANNEL_FLAG_SUBCHANNELS = 0 ->
     channel_add_subchannel s ch subchannel = Done (0, s)) /\
  (Z.land f CHANNEL_FLAG_SUBCHANNELS <> 0 ->
   forall sub sc old oc,
     subchannel = Some sub ->
     chans s !! sub = Some sc ->
     parent sc = Some old ->
     chans s !! old = Some oc ->
     exists a c s1 s',
       ch = Some a /\ chans s !! a = Some c /\
       channel_remove_subchannel s (parent sc) subchannel = Done (1, s1) /\
       (parent <$> chans s1 !! sub) = Some NULL /\
       (subchannels <$> chans s1 !! old)
         = Some (ar_remove (subchannels oc) subchannel) /\
       channel_add_subchannel s ch subchannel = Done (1, s') /\
       (parent <$> chans s' !! sub) = Some ch /\
       (subchannels <$> chans s' !! a)
         = Some (ar_insert (if decide (old = a)
                            then ar_remove (subchannels c) subchannel
                            else subchannels c) subchannel).2 /\
       (old <> a ->
          (subchannels <$> chans s' !! old)
            = Some (ar_remove (subchannels oc) subchannel)) /\
       (forall x, x <> a -> x <> sub -> x <> old ->
          chans s' !! x = chans s !! x) /\
       pls s' = pls s /\ privs s' = privs s /\ db s' = db s).
Proof.
  intros G. split.
  - intros Z0. by eapply channel_add_subchannel_refused.
  - intros F sub sc old oc -> Es Ps Eo.
    destruct (ch_getflags_subchannels_top _ _ _ G F) as (a & c & -> & Ea & Pa & ->).
    assert (a <> sub) as N by (unfold NULL in *; intros ->; congruence).
    eexists a, c, _, _.
    split; [reflexivity|]. split; [exact Ea|].
    split. { rewrite Ps. by apply channel_remove_subchannel_own. }
    split. { unfold detached. simpl. by rewrite lookup_insert_eq. }
    split.
    { unfold detached. simpl. destruct (decide (old = sub)) as [->|No].
      - by rewrite lookup_insert_eq.
      - rewrite lookup_insert_ne by done. by rewrite lookup_insert_eq. }
    split. { by eapply channel_add_subchannel_moved. }
    split.
    { simpl. rewrite lookup_insert_ne by done. by rewrite lookup_insert_eq. }
    split.
    { simpl. rewrite lookup_insert_eq. simpl.
      destruct (decide (old = a)) as [->|No]; [|done].
      replace oc with c by congruence. done. }
    split.
    { intros No. simpl. rewrite lookup_insert_ne by done.
      destruct (decide (old = sub)) as [->|Ns].
      - rewrite lookup_insert_eq. simpl. done.
      - rewrite lookup_insert_ne by done. rewrite lookup_insert_ne by done.
        by rewrite lookup_insert_eq. }
    split.
    { intros x Xa Xs Xo. simpl. by rewrite !lookup_insert_ne by done. }
    done.
Qed.

(** C3, as the code has it.  [channel_add_subchannel] looks at the flags of
    [ch] only: a top channel that has subchannels of its own is accepted as
    a child, and keeps them. *)
Theorem channel_add_subchannel_nests s a c sub sc :
  chans s !! a = Some c ->
  parent c = NULL ->
  Z.land (flags c) CHANNEL_FLAG_SUBCHANNELS <> 0 ->
  chans s !! sub = Some sc ->
  parent sc = NULL ->
  a <> sub ->
  slots (subchannels sc) <> [] ->
  exists s' sc',
    channel_add_subchannel s (Some a) (Some sub) = Done (1, s') /\
    chans s' !! sub = Some sc' /\
    parent sc' = Some a /\
    subchannels sc' = subchannels sc /\
    slots (subchannels sc') <> [].
Proof.
  intros Ea Pa F Es Ps N NE.
  eexists _, (set_parent sc (Some a)).
  split; [by apply channel_add_subchannel_fresh|].
  split; [|done].
  simpl. rewrite lookup_insert_ne by done. by rewrite lookup_insert_eq.
Qed.

(** ** Machine integers and bytes *)

Lemma to_int_to_size_t x : to_int (to_size_t x) = to_int x.
Proof.
  unfold to_int, to_size_t.
  rewrite <- (Z.add_mod_idemp_l (x mod 2 ^ 64)) by lia.
  rewrite Z.mod_mod_divide by (exists (2 ^ 32); reflexivity).
  by rewrite Z.add_mod_idemp_l by lia.
Qed.

Lemma to_int_small x : 0 <= x <= INT_MAX -> to_int x = x.
Proof. unfold to_int, INT_MAX. intros. rewrite Z.mod_small; lia. Qed.

Lemma to_int_le x : to_int x <= INT_MAX.
Proof.
  unfold to_int, INT_MAX.
  pose proof (Z.mod_pos_bound (x + 2 ^ 31) (2 ^ 32)). lia.
Qed.

Lemma to_size_t_small x : 0 <= x <= INT_MAX -> to_size_t x = x.
Proof. unfold to_size_t, INT_MAX. intros. rewrite Z.mod_small; lia. Qed.

Lemma land_shiftl_low a b n :
  0 <= n -> 0 <= b < 2 ^ n -> Z.land (Z.shiftl a n) b = 0.
Proof.
  intros Hn Hb. apply Z.bits_inj'. intros i Hi.
  rewrite Z.land_spec, Z.bits_0.
  destruct (Z.lt_ge_cases i n) as [L|G].
  - by rewrite Z.shiftl_spec_low by lia.
  - rewrite <- (Z.mod_small b (2 ^ n)) by lia.
    rewrite Z.mod_pow2_bits_high by lia. apply andb_false_r.
Qed.

Lemma lor_shiftl a b n :
  0 <= n -> 0 <= b < 2 ^ n -> Z.lor (Z.shiftl a n) b = a * 2 ^ n + b.
Proof.
  intros Hn Hb. rewrite <- Z.shiftl_mul_pow2 by lia.
  rewrite <- Z.add_lor_land, land_shiftl_low by lia. lia.
Qed.

(** The byte of [w] at bit [k], as a writer stores it and a reader takes
    it back. *)
Lemma stored_byte w k :
  0 <= k -> Z.land (Z.shiftr w k) 255 mod 256 = (w / 2 ^ k) mod 256.
Proof.
  intros Hk. change 255 with (Z.ones 8).
  rewrite Z.land_ones by lia. rewrite Z.shiftr_div_pow2 by lia.
  change (2 ^ 8) with 256. apply Z.mod_mod. lia.
Qed.

Lemma stored_byte0 w : Z.land w 255 mod 256 = w mod 256.
Proof.
  change 255 with (Z.ones 8). rewrite Z.land_ones by lia.
  change (2 ^ 8) with 256. apply Z.mod_mod. lia.
Qed.

Lemma u16_of_bytes w :
  0 <= w < 2 ^ 16 ->
  Z.lor (Z.shiftl ((w / 2 ^ 8) mod 256) 8) (w mod 256) = w.
Proof.
  intros Hw. rewrite lor_shiftl by (pose proof (Z.mod_pos_bound w 256); lia).
  Z.div_mod_to_equations. lia.
Qed.

Lemma u32_of_bytes w :
  0 <= w < 2 ^ 32 ->
  Z.lor (Z.shiftl ((w / 2 ^ 24) mod 256) 24)
    (Z.lor (Z.shiftl ((w / 2 ^ 16) mod 256) 16)
       (Z.lor (Z.shiftl ((w / 2 ^ 8) mod 256) 8) (w mod 256))) = w.
Proof.
  intros Hw.
  pose proof (Z.mod_pos_bound w 256).
  pose proof (Z.mod_pos_bound (w / 2 ^ 8) 256).
  pose proof (Z.mod_pos_bound (w / 2 ^ 16) 256).
  rewrite (lor_shiftl _ _ 8) by lia.
  rewrite (lor_shiftl _ _ 16) by lia.
  rewrite (lor_shiftl _ _ 24) by lia.
  Z.div_mod_to_equations. lia.
Qed.

Lemma to_u16_range v : 0 <= to_u16 v < 2 ^ 16.
Proof. apply Z.mod_pos_bound. lia. Qed.

Lemma to_u32_range v : 0 <= to_u32 v < 2 ^ 32.
Proof. apply Z.mod_pos_bound. lia. Qed.

Lemma read_header_bytes (b0 b1 b2 b3 b4 b5 b6 b7 b8 b9 b10 b11 b12 b13 b14 b15 : Z)
    (rest : list Z) :
  let data := b0 :: b1 :: b2 :: b3 :: b4 :: b5 :: b6 :: b7 :: b8 :: b9 :: b10
              :: b11 :: b12 :: b13 :: b14 :: b15 :: rest in
  ru16 data 4 = Done (Z.lor (Z.shiftl (b4 mod 256) 8) (b5 mod 256), 6) /\
  ru16 data 6 = Done (Z.lor (Z.shiftl (b6 mod 256) 8) (b7 mod 256), 8) /\
  ru32 data 8 = Done (Z.lor (Z.shiftl (b8 mod 256) 24)
                        (Z.lor (Z.shiftl (b9 mod 256) 16)
                           (Z.lor (Z.shiftl (b10 mod 256) 8) (b11 mod 256))), 12) /\
  ru16 data 12 = Done (Z.lor (Z.shiftl (b12 mod 256) 8) (b13 mod 256), 14) /\
  ru16 data 14 = Done (Z.lor (Z.shiftl (b14 mod 256) 8) (b15 mod 256), 16).
Proof. repeat split. Qed.

(** Reading back a header, whatever follows it. *)
Lemma read_header (i f co p so m : Z) (rest : list Z) :
  let data := wu32 i ++ wu16 f ++ wu16 co ++ wu32 p ++ wu16 so ++ wu16 m ++ rest in
  ru16 data 4 = Done (to_u16 f, 6) /\
  ru16 data 6 = Done (to_u16 co, 8) /\
  ru32 data 8 = Done (to_u32 p, 12) /\
  ru16 data 12 = Done (to_u16 so, 14) /\
  ru16 data 14 = Done (to_u16 m, 16).
Proof.
  unfold wu32, wu16.
  generalize (to_u16_range f) (to_u16_range co) (to_u16_range so)
             (to_u16_range m) (to_u32_range p).
  generalize (to_u16 f) (to_u16 co) (to_u16 so) (to_u16 m) (to_u32 p) (to_u32 i).
  intros f' co' so' m' p' i' Hf Hco Hso Hm Hp. cbv zeta. cbn [app].
  match goal with
  | |- context [ru16 (?b0 :: ?b1 :: ?b2 :: ?b3 :: ?b4 :: ?b5 :: ?b6 :: ?b7 :: ?b8
                      :: ?b9 :: ?b10 :: ?b11 :: ?b12 :: ?b13 :: ?b14 :: ?b15 :: rest) 4] =>
      destruct (read_header_bytes b0 b1 b2 b3 b4 b5 b6 b7 b8 b9 b10 b11 b12 b13
                  b14 b15 rest) as (-> & -> & -> & -> & ->)
  end.
  rewrite !stored_byte by lia. rewrite !stored_byte0.
  rewrite u32_of_bytes by done. rewrite !u16_of_bytes by done.
  done.
Qed.

(** ** Strings in a buffer *)

Lemma cstring_ok_cons b s :
  cstring_ok (b :: s) = true <-> (0 < b < 256) /\ cstring_ok s = true.
Proof.
  unfold cstring_ok. simpl. rewrite !andb_true_iff, Z.ltb_lt, Z.ltb_lt. tauto.
Qed.

Lemma strn_read_cstring s rest n :
  cstring_ok s = true -> strlen s <= n ->
  strn_read (s ++ 0 :: rest) n = Done s.
Proof.
  unfold strlen. revert n. induction s as [|b s IH]; intros n Hs Hn.
  - simpl. destruct (n <=? 0); reflexivity.
  - apply cstring_ok_cons in Hs as [Hb Hs].
    simpl length in Hn. simpl.
    rewrite (proj2 (Z.leb_gt n 0)) by lia.
    rewrite (Z.mod_small b 256) by lia.
    rewrite (proj2 (Z.eqb_neq b 0)) by lia.
    rewrite IH by (done || lia). reflexivity.
Qed.

Lemma strndup_in_place ok pre s rest off n :
  off = Z.of_nat (length pre) ->
  cstring_ok s = true -> strlen s <= n ->
  strndup ok (pre ++ s ++ 0 :: rest) off n = Done (if ok then Some s else None).
Proof.
  intros -> Hs Hn. unfold strndup.
  rewrite (proj2 (Z.ltb_ge _ 0)) by lia.
  rewrite Nat2Z.id, drop_app_length.
  by rewrite strn_read_cstring.
Qed.

(** Whatever the bytes, a read bounded by what the buffer holds succeeds:
    it stops at the first NUL, or at the bound. *)
Lemma strn_read_bounded mem n :
  n <= Z.of_nat (length mem) ->
  exists r, strn_read mem n = Done r /\
    cstring_ok r = true /\ strlen r <= Z.max 0 n.
Proof.
  unfold strlen. revert n. induction mem as [|b mem IH]; intros n Hn.
  - simpl in *. rewrite (proj2 (Z.leb_le n 0)) by lia. exists []. simpl.
    repeat split; lia.
  - simpl. destruct (Z.leb_spec n 0) as [L|L].
    { exists []. simpl. repeat split; lia. }
    destruct (Z.eqb_spec (b mod 256) 0) as [E|E].
    { exists []. simpl. repeat split; lia. }
    destruct (IH (n - 1)) as (r & -> & Hr & Hl).
    { simpl length in Hn. lia. }
    exists (b mod 256 :: r). simpl. split; [done|]. split.
    + apply cstring_ok_cons. split; [|done].
      pose proof (Z.mod_pos_bound b 256). lia.
    + lia.
Qed.

(** Without a NUL among the first [n] bytes the read is cut at the bound. *)
Lemma strn_read_cut mem n :
  0 <= n <= Z.of_nat (length mem) ->
  Forall (fun b => b mod 256 <> 0) (take (Z.to_nat n) mem) ->
  strn_read mem n = Done ((fun b => b mod 256) <$> take (Z.to_nat n) mem).
Proof.
  revert n. induction mem as [|b mem IH]; intros n Hn Hz.
  - simpl in *. rewrite (proj2 (Z.leb_le n 0)) by lia. by rewrite take_nil.
  - simpl. destruct (Z.leb_spec n 0) as [L|L].
    { replace n with 0 by lia. reflexivity. }
    replace (Z.to_nat n) with (S (Z.to_nat (n - 1))) in * by lia.
    simpl in Hz. apply Forall_cons in Hz as [Hb Hz].
    rewrite (proj2 (Z.eqb_neq _ 0)) by done.
    rewrite IH; [reflexivity| |done]. simpl length in Hn. lia.
Qed.

(** ** Encoding *)

Lemma length_wu16 v : length (wu16 v) = 2%nat.
Proof. reflexivity. Qed.

Lemma length_wu32 v : length (wu32 v) = 4%nat.
Proof. reflexivity. Qed.

Lemma length_strcpy s : Z.of_nat (length (strcpy s)) = strlen s + 1.
Proof. unfold strcpy, strlen. rewrite length_app. simpl. lia. Qed.

Lemma length_wire (i f co p so m : Z) (nm tp ds : cstring) :
  Z.of_nat (length (wu32 i ++ wu16 f ++ wu16 co ++ wu32 p ++ wu16 so ++ wu16 m
                    ++ strcpy nm ++ strcpy tp ++ strcpy ds))
  = 16 + (strlen nm + 1) + (strlen tp + 1) + (strlen ds + 1).
Proof.
  rewrite !length_app, !length_wu16, !length_wu32, !Nat2Z.inj_add, !length_strcpy.
  lia.
Qed.

Lemma strlen_nonneg s : 0 <= strlen s.
Proof. unfold strlen. lia. Qed.

(** What [channel_to_data] does on a live channel whose parent, if any, is
    live: the bytes in the order of the layout, and the sum as an [int]. *)
Lemma channel_to_data_unfold s a c pid :
  chans s !! a = Some c ->
  match parent c with
  | None => pid = 4294967295
  | Some pa => exists p, chans s !! pa = Some p /\ pid = id p
  end ->
  channel_to_data s (Some a) =
    let data := wu32 (id c) ++ wu16 (flags c) ++ wu16 (codec c) ++ wu32 pid
                ++ wu16 (sort_order c) ++ wu16 (max_slots (players c))
                ++ strcpy (name c) ++ strcpy (topic c) ++ strcpy (desc c) in
    if wire_size c =? to_int (wire_size c)
    then Done (to_int (wire_size c), data) else Undefined.
Proof.
  intros E P. unfold channel_to_data. rewrite (load_Some _ _ _ E).
  cbn [mbind exec_bind].
  assert (match parent c with
          | Some _ => p ← load (chans s) (parent c); Done (id p)
          | None => Done 4294967295
          end = Done pid) as ->.
  { destruct (parent c) as [pa|]; [|by subst].
    destruct P as (p & Ep & ->). by rewrite (load_Some _ _ _ Ep). }
  cbn [mbind exec_bind]. cbv zeta.
  rewrite length_wire, to_int_to_size_t.
  replace (4 + 2 + 2 + 4 + 2 + 2 + strlen (name c) + 1 + strlen (topic c) + 1
           + strlen (desc c) + 1) with (wire_size c) by (unfold wire_size; lia).
  reflexivity.
Qed.

Lemma channel_to_data_size_unfold s a c :
  chans s !! a = Some c ->
  channel_to_data_size s (Some a) = Done (to_int (wire_size c)).
Proof.
  intros E. unfold channel_to_data_size. rewrite (load_Some _ _ _ E).
  cbn [mbind exec_bind]. rewrite to_int_to_size_t.
  f_equal. f_equal. unfold wire_size. lia.
Qed.

Lemma wire_size_pos c : 19 <= wire_size c.
Proof.
  unfold wire_size.
  pose proof (strlen_nonneg (name c)). pose proof (strlen_nonneg (topic c)).
  pose proof (strlen_nonneg (desc c)). lia.
Qed.

(** Inversion: an encoding that was produced. *)
Lemma channel_to_data_Done s ch n data :
  channel_to_data s ch = Done (n, data) ->
  exists a c pid,
    ch = Some a /\ chans s !! a = Some c /\
    match parent c with
    | None => pid = 4294967295
    | Some pa => exists p, chans s !! pa = Some p /\ pid = id p
    end /\
    n = wire_size c /\ wire_size c <= INT_MAX /\
    data = wu32 (id c) ++ wu16 (flags c) ++ wu16 (codec c) ++ wu32 pid
           ++ wu16 (sort_order c) ++ wu16 (max_slots (players c))
           ++ strcpy (name c) ++ strcpy (topic c) ++ strcpy (desc c).
Proof.
  intros R.
  destruct (load (chans s) ch) as [c|] eqn:L;
    [|by unfold channel_to_data in R; rewrite L in R].
  apply load_Done in L as (a & -> & E).
  assert (exists pid, match parent c with
          | None => pid = 4294967295
          | Some pa => exists p, chans s !! pa = Some p /\ pid = id p
          end) as (pid & P).
  { destruct (parent c) as [pa|] eqn:Pc; [|by eexists].
    destruct (chans s !! pa) as [p|] eqn:Ep; [by eauto|].
    exfalso. unfold channel_to_data in R. rewrite (load_Some _ _ _ E) in R.
    cbn [mbind exec_bind] in R. rewrite Pc in R.
    unfold load in R. rewrite Ep in R. discriminate. }
  rewrite (channel_to_data_unfold _ _ _ _ E P) in R. cbv zeta in R.
  destruct (Z.eqb_spec (wire_size c) (to_int (wire_size c))) as [Q|Q];
    [|discriminate].
  injection R as <- <-. exists a, c, pid.
  pose proof (to_int_le (wire_size c)).
  repeat split; try done; lia.
Qed.

(** C2.  Whenever [channel_to_data] returns, the value it returns is the
    value of [channel_to_data_size], the number of bytes it stored, and 16
    plus the three string lengths with their terminators; and it does
    return on every live channel (with a live parent, if any) whose size
    fits an [int]. *)
Theorem channel_to_data_size_contract s ch :
  (forall n data, channel_to_data s ch = Done (n, data) ->
     channel_to_data_size s ch = Done n /\
     Z.of_nat (length data) = n /\
     exists c, load (chans s) ch = Done c /\
       n = 16 + (strlen (name c) + 1) + (strlen (topic c) + 1)
              + (strlen (desc c) + 1)) /\
  (forall c, load (chans s) ch = Done c ->
     (parent c = NULL \/ exists p, load (chans s) (parent c) = Done p) ->
     wire_size c <= INT_MAX ->
     exists data, channel_to_data s ch = Done (wire_size c, data)).
Proof.
  split.
  - intros n data R.
    destruct (channel_to_data_Done _ _ _ _ R)
      as (a & c & pid & -> & E & P & -> & Hle & ->).
    pose proof (wire_size_pos c).
    split.
    { rewrite (channel_to_data_size_unfold _ _ _ E).
      by rewrite to_int_small by lia. }
    split; [apply length_wire|].
    exists c. split; [by apply load_Some|reflexivity].
  - intros c L P Hle. apply load_Done in L as (a & -> & E).
    pose proof (wire_size_pos c).
    assert (exists pid, match parent c with
            | None => pid = 4294967295
            | Some pa => exists p, chans s !! pa = Some p /\ pid = id p
            end) as (pid & P').
    { destruct P as [->|(p & Lp)]; [by eexists|].
      apply load_Done in Lp as (pa & -> & Ep). eauto. }
    rewrite (channel_to_data_unfold _ _ _ _ E P'). cbv zeta.
    rewrite to_int_small by lia. rewrite Z.eqb_refl. eauto.
Qed.

(** Past [INT_MAX] the sum wraps and the assertion of [channel_to_data]
    fails. *)
Lemma channel_to_data_overflow s a c :
  chans s !! a = Some c ->
  INT_MAX < wire_size c ->
  channel_to_data s (Some a) = Undefined.
Proof.
  intros E Hgt.
  destruct (channel_to_data s (Some a)) as [[n data]|] eqn:R; [|done].
  destruct (channel_to_data_Done _ _ _ _ R) as (a' & c' & pid & [= <-] & E' & _ & _ & Hle & _).
  rewrite E in E'. injection E' as <-. lia.
Qed.

(** ** Decoding *)

(** Decoding the bytes of a layout whose strings are C strings and whose
    length is [len]. *)
Lemma channel_from_data_wire alloc dst (i f co p so m : Z) (nm tp ds : cstring) len :
  cstring_ok nm = true -> cstring_ok tp = true -> cstring_ok ds = true ->
  len = 16 + (strlen nm + 1) + (strlen tp + 1) + (strlen ds + 1) ->
  len <= INT_MAX ->
  alloc 0%nat = true -> alloc 1%nat = true -> alloc 2%nat = true ->
  channel_from_data alloc
    (wu32 i ++ wu16 f ++ wu16 co ++ wu32 p ++ wu16 so ++ wu16 m
     ++ strcpy nm ++ strcpy tp ++ strcpy ds) len dst
  = (d ← (if negb (to_u32 p =? 4294967295)
          then match new_channel (fun k => alloc (3 + k)%nat) nm tp ds
                       (to_u16 f) (to_u16 co) (to_u16 so) (to_u16 m) with
               | Some c => Done (Some (set_parent_id c (to_u32 p)))
               | None => Undefined
               end
          else Done (new_channel (fun k => alloc (3 + k)%nat) nm tp ds
                       (to_u16 f) (to_u16 co) (to_u16 so) (to_u16 m)));
     Done (len, d)).
Proof.
  intros Hn Ht Hd Hlen Hmax A0 A1 A2.
  pose proof (strlen_nonneg nm). pose proof (strlen_nonneg tp).
  pose proof (strlen_nonneg ds).
  unfold channel_from_data. cbv zeta. change (0 + 4) with 4.
  rewrite (to_int_small len) by lia.
  destruct (read_header i f co p so m (strcpy nm ++ strcpy tp ++ strcpy ds))
    as (R1 & R2 & R3 & R4 & R5).
  rewrite R1. cbn [mbind exec_bind]. rewrite R2. cbn [mbind exec_bind].
  rewrite R3. cbn [mbind exec_bind]. rewrite R4. cbn [mbind exec_bind].
  rewrite R5. cbn [mbind exec_bind]. clear R1 R2 R3 R4 R5.
  set (hdr := wu32 i ++ wu16 f ++ wu16 co ++ wu32 p ++ wu16 so ++ wu16 m).
  assert (length hdr = 16%nat) as Lh by reflexivity.
  replace (wu32 i ++ wu16 f ++ wu16 co ++ wu32 p ++ wu16 so ++ wu16 m
           ++ strcpy nm ++ strcpy tp ++ strcpy ds)
    with (hdr ++ nm ++ 0 :: (tp ++ 0 :: (ds ++ 0 :: [])))
    by (unfold hdr, strcpy; rewrite <- !app_assoc; reflexivity).
  rewrite (strndup_in_place _ hdr nm) by (rewrite ?Lh, ?to_size_t_small; lia || done).
  rewrite A0. cbn [mbind exec_bind strlen_of].
  replace (hdr ++ nm ++ 0 :: (tp ++ 0 :: (ds ++ 0 :: [])))
    with ((hdr ++ nm ++ [0]) ++ tp ++ 0 :: (ds ++ 0 :: []))
    by (rewrite <- !app_assoc; reflexivity).
  rewrite (strndup_in_place _ (hdr ++ nm ++ [0]) tp)
    by (rewrite ?length_app, ?Lh, ?to_size_t_small; unfold strlen in *;
        simpl length; lia || done).
  rewrite A1. cbn [mbind exec_bind strlen_of].
  replace ((hdr ++ nm ++ [0]) ++ tp ++ 0 :: (ds ++ 0 :: []))
    with ((hdr ++ nm ++ [0] ++ tp ++ [0]) ++ ds ++ 0 :: [])
    by (rewrite <- !app_assoc; reflexivity).
  rewrite (strndup_in_place _ (hdr ++ nm ++ [0] ++ tp ++ [0]) ds)
    by (rewrite ?length_app, ?Lh, ?to_size_t_small; unfold strlen in *;
        simpl length; lia || done).
  rewrite A2. cbn [mbind exec_bind strlen_of].
  rewrite to_size_t_small by lia.
  replace (16 + (strlen nm + 1) + (strlen tp + 1) + (strlen ds + 1)) with len by lia.
  reflexivity.
Qed.

Lemma is_u16_true x : is_u16 x = true -> to_u16 x = x.
Proof.
  unfold is_u16, to_u16. rewrite andb_true_iff, Z.leb_le, Z.ltb_lt.
  intros. apply Z.mod_small. lia.
Qed.

Lemma new_channel_ok alloc nm tp ds f co so m :
  (forall k, alloc k = true) ->
  new_channel alloc nm tp ds f co so m =
  Some {| id := 0; flags := to_u16 f; codec := to_u16 co;
          sort_order := to_u16 so; name := nm; topic := tp; desc := ds;
          password := repeat 0 30;
          players := set_max_slots (ar_new 4) (to_u16 m);
          subchannels := ar_new 4; pl_privileges := ar_new 4;
          parent := NULL; parent_id := 0; in_server := NULL |}.
Proof. intros A. unfold new_channel. by rewrite !A. Qed.

(** C1, as the code has it.  Decoding the bytes [channel_to_data] stored
    for a valid channel, with [len] the returned size and every allocation
    succeeding, consumes that many bytes, which is what
    [channel_to_data_size] computes, and yields a new channel with the
    flags, codec, sort order, [max_slots], name, topic and description of
    the encoded one.  The id is not decoded: it is the 0 of [calloc], like
    the password, and the three containers are new.  The parent is NULL;
    [parent_id] is the id of the parent, and 0 without one. *)
Theorem channel_round_trip s a c n data alloc dst :
  chans s !! a = Some c ->
  valid_channel s c = true ->
  (forall k, alloc k = true) ->
  channel_to_data s (Some a) = Done (n, data) ->
  channel_to_data_size s (Some a) = Done n /\
  channel_from_data alloc data n dst =
    Done (n, Some {| id := 0; flags := flags c; codec := codec c;
                     sort_order := sort_order c;
                     name := name c; topic := topic c; desc := desc c;
                     password := repeat 0 30;
                     players := set_max_slots (ar_new 4) (max_slots (players c));
                     subchannels := ar_new 4; pl_privileges := ar_new 4;
                     parent := NULL; parent_id := wire_parent_id s c;
                     in_server := NULL |}).
Proof.
  intros E V A R.
  destruct (channel_to_data_Done _ _ _ _ R)
    as (a' & c' & pid & [= <-] & E' & P & -> & Hle & ->).
  rewrite E in E'. injection E' as <-.
  pose proof (wire_size_pos c).
  split.
  { rewrite (channel_to_data_size_unfold _ _ _ E).
    by rewrite to_int_small by lia. }
  unfold valid_channel in V. rewrite !andb_true_iff in V.
  destruct V as (((((((Vf & Vc) & Vs) & Vm) & Vn) & Vt) & Vd) & Vp).
  rewrite channel_from_data_wire; try done.
  rewrite new_channel_ok by done.
  rewrite !is_u16_true by (rewrite ?is_u16_true; done).
  unfold wire_parent_id. destruct (parent c) as [pa|].
  - destruct P as (p & Ep & ->). rewrite Ep in Vp |- *.
    rewrite andb_true_iff, Z.leb_le, Z.ltb_lt in Vp.
    unfold to_u32. rewrite Z.mod_small by lia.
    rewrite (proj2 (Z.eqb_neq (id p) 4294967295)) by lia. reflexivity.
  - subst pid. reflexivity.
Qed.

(** ** Decoding arbitrary bytes *)

Lemma strndup_bounded ok data off n :
  0 <= off -> off + n <= Z.of_nat (length data) ->
  exists r, strn_read (drop (Z.to_nat off) data) n = Done r /\
    strndup ok data off n = Done (if ok then Some r else None) /\
    cstring_ok r = true /\ strlen r <= Z.max 0 n.
Proof.
  intros Ho Hn.
  destruct (strn_read_bounded (drop (Z.to_nat off) data) n) as (r & Hr & Hc & Hl).
  { rewrite length_drop. lia. }
  exists r. split; [done|]. split; [|done].
  unfold strndup. rewrite (proj2 (Z.ltb_ge off 0)) by lia. by rewrite Hr.
Qed.

(** What a bounded read yields: of the first [n] bytes, those before the
    first NUL. *)
Lemma strn_read_prefix mem n :
  0 <= n <= Z.of_nat (length mem) ->
  strn_read mem n = Done (cut_at_nul (take (Z.to_nat n) mem)).
Proof.
  revert n. induction mem as [|b mem IH]; intros n Hn.
  - simpl in *. rewrite (proj2 (Z.leb_le n 0)) by lia. by rewrite take_nil.
  - cbn [strn_read]. destruct (Z.leb_spec n 0) as [L|L].
    { by replace n with 0 by lia. }
    replace (Z.to_nat n) with (S (Z.to_nat (n - 1))) by lia.
    cbn [take cut_at_nul]. destruct (b mod 256 =? 0); [done|].
    rewrite IH by (simpl length in Hn; lia). reflexivity.
Qed.

Lemma read_u16_fits x y :
  to_u16 (Z.lor (Z.shiftl (x mod 256) 8) (y mod 256))
  = Z.lor (Z.shiftl (x mod 256) 8) (y mod 256).
Proof.
  pose proof (Z.mod_pos_bound x 256). pose proof (Z.mod_pos_bound y 256).
  rewrite lor_shiftl by lia. unfold to_u16. rewrite Z.mod_small; lia.
Qed.

(** C5, as the code has it.  When the allocations succeed and the buffer
    holds the [len >= 19] bytes it is said to hold, [channel_from_data]
    does not fail, whether or not the strings are terminated: it returns a
    count of at most [len] and a whole channel, made of the five header
    fields as they are read and of three strings.  Each string is the
    bytes from where the one before ended (its terminator, or the byte in
    its place, skipped) up to the first NUL or up to its bound, what is
    left of [len] less 3, 2 and 1.  A name without NUL within its bound is
    cut there, and topic and description are then empty. *)
Theorem channel_from_data_bounded alloc data len dst :
  (forall k, alloc k = true) ->
  19 <= len <= INT_MAX ->
  len <= Z.of_nat (length data) ->
  exists n c,
    channel_from_data alloc data len dst = Done (n, Some c) /\
    n = wire_size c /\ 19 <= n <= len /\
    strn_read (drop 16 data) (len - 19) = Done (name c) /\
    strlen (name c) <= len - 19 /\
    strlen (topic c) <= len - 19 - strlen (name c) /\
    strlen (desc c) <= len - 19 - strlen (name c) - strlen (topic c) /\
    (Forall (fun b => b mod 256 <> 0) (take (Z.to_nat (len - 19)) (drop 16 data)) ->
     name c = (fun b => b mod 256) <$> take (Z.to_nat (len - 19)) (drop 16 data) /\
     topic c = [] /\ desc c = [] /\ n = len) /\
    name c = cut_at_nul (take (Z.to_nat (len - 19)) (drop 16 data)) /\
    topic c = cut_at_nul
                (take (Z.to_nat (len - 19 - strlen (name c)))
                   (drop (Z.to_nat (16 + (strlen (name c) + 1))) data)) /\
    desc c = cut_at_nul
               (take (Z.to_nat (len - 19 - strlen (name c) - strlen (topic c)))
                  (drop (Z.to_nat (16 + (strlen (name c) + 1)
                                      + (strlen (topic c) + 1))) data)) /\
    exists f co p so m,
      ru16 data 4 = Done (f, 6) /\ ru16 data 6 = Done (co, 8) /\
      ru32 data 8 = Done (p, 12) /\ ru16 data 12 = Done (so, 14) /\
      ru16 data 14 = Done (m, 16) /\
      c = {| id := 0; flags := f; codec := co; sort_order := so;
             name := name c; topic := topic c; desc := desc c;
             password := repeat 0 30;
             players := set_max_slots (ar_new 4) m;
             subchannels := ar_new 4; pl_privileges := ar_new 4;
             parent := NULL;
             parent_id := (if p =? 4294967295 then 0 else p);
             in_server := NULL |}.
Proof.
  intros A [Hlo Hhi] Hdata.
  unfold channel_from_data. cbv zeta. change (0 + 4) with 4.
  rewrite (to_int_small len) by lia.
  assert (exists hdr rest, data = hdr ++ rest /\ length hdr = 16%nat)
    as (hdr & rest & Ed & Lh).
  { exists (take 16 data), (drop 16 data). rewrite take_drop.
    split; [done|]. rewrite length_take. lia. }
  do 16 (destruct hdr as [|? hdr]; [discriminate Lh|]).
  destruct hdr; [|discriminate Lh]. cbn [app] in Ed.
  match type of Ed with
  | _ = ?b0 :: ?b1 :: ?b2 :: ?b3 :: ?b4 :: ?b5 :: ?b6 :: ?b7 :: ?b8 :: ?b9
        :: ?b10 :: ?b11 :: ?b12 :: ?b13 :: ?b14 :: ?b15 :: rest =>
      destruct (read_header_bytes b0 b1 b2 b3 b4 b5 b6 b7 b8 b9 b10 b11 b12 b13
                  b14 b15 rest) as (R1 & R2 & R3 & R4 & R5)
  end.
  rewrite <- Ed in R1, R2, R3, R4, R5.
  rewrite R1. cbn [mbind exec_bind]. rewrite R2. cbn [mbind exec_bind].
  rewrite R3. cbn [mbind exec_bind]. rewrite R4. cbn [mbind exec_bind].
  rewrite R5. cbn [mbind exec_bind]. clear Ed Lh.
  rewrite !A.
  replace (to_size_t (len - 16 - 3)) with (len - 19)
    by (rewrite to_size_t_small; lia).
  destruct (strndup_bounded true data 16 (len - 19)) as (nm & Rn & -> & Cn & Ln);
    [lia|lia|].
  rewrite Z.max_r in Ln by lia. pose proof (strlen_nonneg nm).
  change (Z.to_nat 16) with 16%nat in Rn.
  cbn [mbind exec_bind strlen_of].
  replace (to_size_t (len - (16 + (strlen nm + 1)) - 2))
    with (len - 19 - strlen nm) by (rewrite to_size_t_small; lia).
  destruct (strndup_bounded true data (16 + (strlen nm + 1)) (len - 19 - strlen nm))
    as (tp & Rt & -> & Ct & Lt); [lia|lia|].
  rewrite Z.max_r in Lt by lia. pose proof (strlen_nonneg tp).
  cbn [mbind exec_bind strlen_of].
  replace (to_size_t (len - (16 + (strlen nm + 1) + (strlen tp + 1)) - 1))
    with (len - 19 - strlen nm - strlen tp) by (rewrite to_size_t_small; lia).
  destruct (strndup_bounded true data (16 + (strlen nm + 1) + (strlen tp + 1))
              (len - 19 - strlen nm - strlen tp))
    as (ds & Rd & -> & Cd & Ld); [lia|lia|].
  rewrite Z.max_r in Ld by lia. pose proof (strlen_nonneg ds).
  cbn [mbind exec_bind strlen_of].
  rewrite new_channel_ok by done.
  rewrite to_size_t_small by lia.
  match goal with
  | |- context [if ?b then Done (Some (set_parent_id ?c ?v)) else Done (Some ?c)] =>
      exists (16 + (strlen nm + 1) + (strlen tp + 1) + (strlen ds + 1)),
             (if b then set_parent_id c v else c);
      assert ((if b then set_parent_id c v else c)
              = set_parent_id c (if b then v else 0)) as ->
        by (by destruct b)
  end.
  split. { by destruct (negb _). }
  cbn [set_parent_id name topic desc wire_size].
  split; [reflexivity|]. split; [lia|]. split; [done|].
  split; [done|]. split; [done|]. split; [done|].
  split.
  { intros NoNul.
    rewrite strn_read_cut in Rn; [|rewrite length_drop; lia|done].
    injection Rn as <-.
    assert (strlen ((fun b => b mod 256) <$> take (Z.to_nat (len - 19)) (drop 16 data))
            = len - 19) as Q.
    { unfold strlen. rewrite length_fmap, length_take, length_drop. lia. }
    rewrite Q in *.
    assert (tp = []) as -> by (destruct tp; [done|unfold strlen in *; simpl in *; lia]).
    assert (ds = []) as -> by (destruct ds; [done|unfold strlen in *; simpl in *; lia]).
    repeat split. unfold strlen. simpl. lia. }
  split.
  { rewrite strn_read_prefix in Rn by (rewrite length_drop; lia). congruence. }
  split.
  { rewrite strn_read_prefix in Rt by (rewrite length_drop; lia). congruence. }
  split.
  { rewrite strn_read_prefix in Rd by (rewrite length_drop; lia). congruence. }
  eexists _, _, _, _, _.
  do 5 (split; [reflexivity|]).
  rewrite !read_u16_fits.
  match goal with |- context [negb (?v =? 4294967295)] =>
    by destruct (v =? 4294967295) end.
Qed.

(** ** Privileges *)

Lemma find_privilege_cons s pl q l :
  find_privilege s pl (q :: l) =
    (b ← matches s pl q;
     if b : bool then Done (Some q) else find_privilege s pl l).
Proof.
  cbn [find_privilege]. unfold matches.
  destruct (load (privs s) q) as [pr|]; [|done]. cbn [mbind exec_bind].
  destruct (if priv_reg pr =? PL_CH_PRIV_REGISTERED
            then p ← load (pls s) pl; Done (bool_decide (pl_or_reg pr = reg p))
            else Done false) as [[]|]; cbn [mbind exec_bind orb]; done.
Qed.

Lemma find_privilege_nil s pl : find_privilege s pl [] = Done None.
Proof. reflexivity. Qed.

#[local] Arguments find_privilege : simpl never.

Lemma find_privilege_none s pl l :
  Forall (fun q => matches s pl q = Done false) l ->
  find_privilege s pl l = Done None.
Proof.
  induction 1 as [|q l Hq _ IH]; [apply find_privilege_nil|].
  by rewrite find_privilege_cons, Hq.
Qed.

Lemma find_privilege_none_inv s pl l :
  find_privilege s pl l = Done None ->
  Forall (fun q => matches s pl q = Done false) l.
Proof.
  induction l as [|q l IH]; [constructor|].
  rewrite find_privilege_cons.
  destruct (matches s pl q) as [[]|] eqn:M; cbn [mbind exec_bind]; try done.
  intros F. constructor; auto.
Qed.

Lemma find_privilege_only s pl l x :
  Forall (fun q => q = x \/ matches s pl q = Done false) l ->
  x ∈ l ->
  matches s pl x = Done true ->
  find_privilege s pl l = Done (Some x).
Proof.
  intros F I M. induction F as [|q l Hq _ IH]; [by apply elem_of_nil in I|].
  rewrite find_privilege_cons. destruct Hq as [->|Hq].
  - by rewrite M.
  - rewrite Hq. cbn [mbind exec_bind]. apply IH.
    apply elem_of_cons in I as [->|I]; [congruence|done].
Qed.

Lemma find_privilege_some_loaded s pl l q :
  find_privilege s pl l = Done (Some q) ->
  exists pr, load (privs s) q = Done pr.
Proof.
  induction l as [|q' l IH]; [by rewrite find_privilege_nil|].
  rewrite find_privilege_cons.
  destruct (matches s pl q') as [[]|] eqn:M; cbn [mbind exec_bind]; try done.
  intros [= <-]. unfold matches in M.
  destruct (load (privs s) q') as [pr|]; [eauto|done].
Qed.

(** With the player and the privileges live, the loop runs to its end. *)
Lemma matches_total s pl q p pr :
  load (pls s) pl = Done p -> load (privs s) q = Done pr ->
  exists b, matches s pl q = Done b.
Proof.
  intros Lp Lq. unfold matches. rewrite Lq. cbn [mbind exec_bind].
  destruct (priv_reg pr =? PL_CH_PRIV_REGISTERED); rewrite ?Lp;
    cbn [mbind exec_bind]; eauto.
Qed.

Lemma find_privilege_total s pl l p :
  load (pls s) pl = Done p ->
  Forall (fun q => exists pr, load (privs s) q = Done pr) l ->
  exists r, find_privilege s pl l = Done r.
Proof.
  intros Lp. induction 1 as [|q l [pr Hq] _ [r IH]].
  - rewrite find_privilege_nil. eauto.
  - rewrite find_privilege_cons.
    destruct (matches_total s pl q p pr Lp Hq) as [[] ->];
      cbn [mbind exec_bind]; eauto.
Qed.

(** The tests read the privilege and, at most, the player. *)
Lemma matches_frame s s' pl q :
  load (privs s') q = load (privs s) q ->
  pls s' = pls s ->
  matches s' pl q = matches s pl q.
Proof. intros Eq Ep. unfold matches. by rewrite Eq, Ep. Qed.

(** The record built for a player matches that player. *)
Lemma matches_built s pl q o p :
  load (pls s) pl = Done p ->
  load (privs s) q = Done (built_privilege o pl p) ->
  matches s pl q = Done true.
Proof.
  intros Lp Lq. unfold matches. rewrite Lq. cbn [mbind exec_bind].
  unfold built_privilege.
  destruct (negb _); cbn [priv_reg pl_or_reg].
  - rewrite Z.eqb_refl, Lp. cbn [mbind exec_bind].
    by rewrite bool_decide_eq_true_2.
  - rewrite Z.eqb_refl, (bool_decide_eq_true_2 (pl = pl)) by done.
    destruct (PL_CH_PRIV_UNREGISTERED =? PL_CH_PRIV_REGISTERED); rewrite ?Lp;
      cbn [mbind exec_bind andb]; by rewrite ?orb_true_r.
Qed.

Lemma owner_Done s ch o :
  owner s ch = Done o ->
  exists a c, ch = Some a /\ chans s !! a = Some c /\
    o = if negb (bool_decide (parent c = NULL)) then parent c else ch.
Proof.
  unfold owner. destruct (load (chans s) ch) as [c|] eqn:L; [|done].
  apply load_Done in L as (a & -> & E). intros [= <-]. eauto.
Qed.

(** A call that finds a record returns it and changes nothing. *)
Lemma get_found s pl ch o tc q :
  owner s ch = Done o ->
  load (chans s) o = Done tc ->
  find_privilege s pl (slots (pl_privileges tc)) = Done (Some q) ->
  get_player_channel_privilege s pl ch = Done (q, s).
Proof.
  intros O Lo F. apply owner_Done in O as (a & c & -> & E & ->).
  unfold get_player_channel_privilege.
  rewrite (load_Some _ _ _ E). cbn [mbind exec_bind]. cbv zeta.
  rewrite Lo. cbn [mbind exec_bind]. by rewrite F.
Qed.

(** A call that finds none builds one at a new address and inserts it. *)
Lemma get_built s pl ch o tc p :
  owner s ch = Done o ->
  load (chans s) o = Done tc ->
  load (pls s) pl = Done p ->
  find_privilege s pl (slots (pl_privileges tc)) = Done None ->
  (Z.land (global_flags p) GLOBAL_FLAG_REGISTERED <> 0 ->
   Z.land (flags tc) CHANNEL_FLAG_UNREGISTERED = 0 ->
   in_server tc <> NULL) ->
  let a := fresh (dom (privs s)) in
  exists oa s1,
    o = Some oa /\
    get_player_channel_privilege s pl ch = Done (Some a, s1) /\
    chans s1 = <[oa := set_pl_privileges tc
                         (ar_insert (pl_privileges tc) (Some a)).2]> (chans s) /\
    privs s1 = <[a := built_privilege o pl p]> (privs s) /\
    pls s1 = pls s.
Proof.
  intros O Lo Lp F Srv a.
  destruct (load_Done _ _ _ Lo) as (oa & Eo & Eoa).
  apply owner_Done in O as (ca & c & -> & E & Ho).
  unfold get_player_channel_privilege.
  rewrite (load_Some _ _ _ E). cbn [mbind exec_bind]. cbv zeta.
  rewrite <- Ho, Lo. cbn [mbind exec_bind]. rewrite F. rewrite Lp.
  cbn [mbind exec_bind]. fold a.
  unfold built_privilege.
  destruct (Z.eqb_spec (Z.land (global_flags p) GLOBAL_FLAG_REGISTERED) 0) as [R|R];
    cbn [negb].
  - unfold add_player_channel_privilege. rewrite Eo.
    cbn [mbind exec_bind addr_of store_priv chans load]. rewrite Eoa.
    cbn [mbind exec_bind]. eexists oa, _. repeat split.
  - destruct (Z.eqb_spec (Z.land (flags tc) CHANNEL_FLAG_UNREGISTERED) 0) as [U|U].
    + destruct (in_server tc) as [srv|] eqn:Is; [|by destruct (Srv R U)].
      unfold add_player_channel_privilege. rewrite Eo.
      cbn [mbind exec_bind addr_of store_priv log_db chans load]. rewrite Eoa.
      cbn [mbind exec_bind]. eexists oa, _. repeat split.
    + unfold add_player_channel_privilege. rewrite Eo.
      cbn [mbind exec_bind addr_of store_priv chans load]. rewrite Eoa.
      cbn [mbind exec_bind]. eexists oa, _. repeat split.
Qed.

Lemma fresh_privilege_free s : privs s !! fresh (dom (privs s)) = None.
Proof. apply not_elem_of_dom, is_fresh. Qed.

Lemma load_insert_live {A} (h : gmap addr A) a x q y :
  h !! a = None -> load h q = Done y -> load (<[a := x]> h) q = Done y.
Proof.
  intros Fa L. apply load_Done in L as (qa & -> & E).
  apply load_Some. rewrite lookup_insert_ne; [done|congruence].
Qed.

Section resolver.
Context `{!array_laws}.
Variables (s : state) (pl ch o : ptr) (tc : channel) (p : player).
Hypothesis Hown : owner s ch = Done o.
Hypothesis Hload : load (chans s) o = Done tc.
Hypothesis Hpl : load (pls s) pl = Done p.
Hypothesis Hlive :
  Forall (fun q => exists pr, load (privs s) q = Done pr) (slots (pl_privileges tc)).
Hypothesis Hsrv :
  Z.land (global_flags p) GLOBAL_FLAG_REGISTERED <> 0 ->
  Z.land (flags tc) CHANNEL_FLAG_UNREGISTERED = 0 ->
  in_server tc <> NULL.

(** One call that finds no record: the state it leaves is again one in
    which the call is defined, with the same owner and player; the new
    record is found by the next call if the container took it, and the
    pointers the owner holds are as before if it did not. *)
Lemma get_built_step :
  find_privilege s pl (slots (pl_privileges tc)) = Done None ->
  exists r1 s1 tc1,
    get_player_channel_privilege s pl ch = Done (r1, s1) /\
    load (privs s1) r1 = Done (built_privilege o pl p) /\
    owner s1 ch = Done o /\
    load (chans s1) o = Done tc1 /\
    load (pls s1) pl = Done p /\
    flags tc1 = flags tc /\ in_server tc1 = in_server tc /\
    Forall (fun q => exists pr, load (privs s1) q = Done pr)
           (slots (pl_privileges tc1)) /\
    ((slots (pl_privileges tc1) ≡ₚ r1 :: slots (pl_privileges tc) /\
      find_privilege s1 pl (slots (pl_privileges tc1)) = Done (Some r1)) \/
     (slots (pl_privileges tc1) = slots (pl_privileges tc) /\
      find_privilege s1 pl (slots (pl_privileges tc1)) = Done None)).
Proof.
  intros F.
  destruct (get_built _ _ _ _ _ _ Hown Hload Hpl F Hsrv)
    as (oa & s1 & -> & G & Ec & Ep & El).
  set (a := fresh (dom (privs s))) in *.
  pose proof (fresh_privilege_free s) as Fa. fold a in Fa.
  set (tc1 := set_pl_privileges tc (ar_insert (pl_privileges tc) (Some a)).2) in *.
  exists (Some a), s1, tc1.
  assert (load (privs s1) (Some a) = Done (built_privilege (Some oa) pl p)) as La.
  { apply load_Some. rewrite Ep. apply lookup_insert_eq. }
  assert (load (chans s1) (Some oa) = Done tc1) as Lo1.
  { apply load_Some. rewrite Ec. apply lookup_insert_eq. }
  assert (forall q pr, load (privs s) q = Done pr -> load (privs s1) q = Done pr)
    as Keep.
  { intros q pr L. rewrite Ep. by apply load_insert_live. }
  assert (load (pls s1) pl = Done p) as Lp1 by (by rewrite El).
  split; [done|]. split; [done|]. split.
  { apply owner_Done in Hown as (ca & c & -> & E & Ho).
    unfold owner. apply load_Done in Hload as (? & [= <-] & Eo).
    destruct (decide (ca = oa)) as [->|N].
    - rewrite (load_Some _ _ tc1) by (rewrite Ec; apply lookup_insert_eq).
      cbn [mbind exec_bind]. subst tc1. cbn [set_pl_privileges parent].
      replace c with tc in Ho by congruence. by rewrite <- Ho.
    - rewrite (load_Some _ _ c) by (by rewrite Ec, lookup_insert_ne).
      cbn [mbind exec_bind]. by rewrite <- Ho. }
  split; [done|]. split; [done|]. split; [done|]. split; [done|].
  assert (Forall (fun q => matches s1 pl q = Done false) (slots (pl_privileges tc)))
    as Old.
  { apply find_privilege_none_inv in F.
    rewrite Forall_forall in F, Hlive |- *. intros q Iq.
    destruct (Hlive q Iq) as [pr Lq].
    rewrite (matches_frame s s1) by (by rewrite ?(Keep q pr), ?Lq).
    by apply F. }
  assert (matches s1 pl (Some a) = Done true) as New
    by (by eapply matches_built).
  destruct (ar_insert_slots (pl_privileges tc) (Some a)) as [P|P].
  - split.
    { rewrite Forall_forall. intros q Iq.
      subst tc1. cbn [set_pl_privileges pl_privileges] in Iq.
      rewrite P in Iq. apply elem_of_cons in Iq as [->|Iq]; [eauto|].
      rewrite Forall_forall in Hlive. destruct (Hlive q Iq) as [pr Lq]. eauto. }
    left. split; [done|].
    apply find_privilege_only; [|subst tc1; cbn; rewrite P; left|done].
    subst tc1. cbn [set_pl_privileges pl_privileges]. rewrite P.
    constructor; [by left|].
    eapply Forall_impl; [exact Old|]. by right.
  - split.
    { subst tc1. cbn [set_pl_privileges pl_privileges]. rewrite P.
      eapply Forall_impl; [exact Hlive|]. intros q [pr Lq]. eauto. }
    right. split; [done|].
    subst tc1. cbn [set_pl_privileges pl_privileges]. rewrite P.
    by apply find_privilege_none.
Qed.

End resolver.

Lemma privileges_of_owner s ch o tc :
  owner s ch = Done o -> load (chans s) o = Done tc ->
  privileges_of s ch = Done (slots (pl_privileges tc)).
Proof. intros O L. unfold privileges_of. by rewrite O; cbn; rewrite L. Qed.

(** However many calls follow one another, the owner holds at most one
    pointer more than [k], the number it may hold while none matches. *)
Lemma repeat_get_bound `{!array_laws} n :
  forall s pl ch o tc p (k : nat),
    owner s ch = Done o ->
    load (chans s) o = Done tc ->
    load (pls s) pl = Done p ->
    Forall (fun q => exists pr, load (privs s) q = Done pr)
           (slots (pl_privileges tc)) ->
    (Z.land (global_flags p) GLOBAL_FLAG_REGISTERED <> 0 ->
     Z.land (flags tc) CHANNEL_FLAG_UNREGISTERED = 0 ->
     in_server tc <> NULL) ->
    (find_privilege s pl (slots (pl_privileges tc)) = Done None ->
     (length (slots (pl_privileges tc)) <= k)%nat) ->
    (length (slots (pl_privileges tc)) <= k + 1)%nat ->
    exists sn ln,
      repeat_get n s pl ch = Done sn /\
      privileges_of sn ch = Done ln /\
      (length ln <= k + 1)%nat.
Proof.
  induction n as [|n IH]; intros s pl ch o tc p k O Lo Lp Live Srv K0 K1.
  - exists s, (slots (pl_privileges tc)).
    split; [done|]. split; [by eapply privileges_of_owner|done].
  - cbn [repeat_get].
    destruct (find_privilege_total s pl _ p Lp Live) as [[q|] F].
    + rewrite (get_found _ _ _ _ _ _ O Lo F). cbn [mbind exec_bind snd].
      by eapply IH.
    + destruct (get_built_step s pl ch o tc p O Lo Lp Live Srv F)
        as (r1 & s1 & tc1 & -> & _ & O1 & Lo1 & Lp1 & Ef & Es & Live1 & Cases).
      cbn [mbind exec_bind snd].
      apply (IH s1 pl ch o tc1 p k); try done.
      * by rewrite Ef, Es.
      * destruct Cases as [[_ F1]|[E1 _]]; [by rewrite F1|].
        intros _. rewrite E1. by apply K0.
      * destruct Cases as [[P1 _]|[E1 _]].
        -- rewrite P1. cbn [length]. specialize (K0 F). lia.
        -- by rewrite E1.
Qed.

(** C9.  In a state where the call is defined, two calls in a row for one
    player and one channel return records with the same content (channel,
    tag, identity and level): the same pointer with the state unchanged by
    the second call, unless the container refused the record of the first,
    in which case the owner holds what it held.  And however many calls
    follow one another, the owner of the channel holds at most one pointer
    more than at the start. *)
Theorem get_player_channel_privilege_idempotent `{!array_laws} s pl ch :
  resolvable s pl ch ->
  exists r1 s1 r2 s2 pr,
    get_player_channel_privilege s pl ch = Done (r1, s1) /\
    get_player_channel_privilege s1 pl ch = Done (r2, s2) /\
    load (privs s1) r1 = Done pr /\
    load (privs s2) r2 = Done pr /\
    ((r2 = r1 /\ s2 = s1) \/ privileges_of s1 ch = privileges_of s ch) /\
    forall n, exists sn l0 ln,
      repeat_get n s pl ch = Done sn /\
      privileges_of s ch = Done l0 /\
      privileges_of sn ch = Done ln /\
      (length ln <= length l0 + 1)%nat.
Proof.
  intros (o & tc & p & O & Lo & Lp & Live & Srv).
  assert (forall n, exists sn l0 ln,
            repeat_get n s pl ch = Done sn /\
            privileges_of s ch = Done l0 /\
            privileges_of sn ch = Done ln /\
            (length ln <= length l0 + 1)%nat) as Bound.
  { intros n.
    destruct (repeat_get_bound n s pl ch o tc p
                (length (slots (pl_privileges tc))) O Lo Lp Live Srv)
      as (sn & ln & R & Pn & Hn); [done|lia|].
    exists sn, (slots (pl_privileges tc)), ln.
    split; [done|]. split; [by eapply privileges_of_owner|done]. }
  destruct (find_privilege_total s pl _ p Lp Live) as [[q|] F].
  - destruct (find_privilege_some_loaded _ _ _ _ F) as [pr Lq].
    pose proof (get_found _ _ _ _ _ _ O Lo F) as G.
    exists q, s, q, s, pr. repeat split; auto.
  - destruct (get_built_step s pl ch o tc p O Lo Lp Live Srv F)
      as (r1 & s1 & tc1 & G1 & L1 & O1 & Lo1 & Lp1 & Ef & Es & Live1 & Cases).
    destruct Cases as [[_ F1]|[E1 F1]].
    + pose proof (get_found _ _ _ _ _ _ O1 Lo1 F1) as G2.
      exists r1, s1, r1, s1, (built_privilege o pl p). repeat split; auto.
    + assert (Z.land (global_flags p) GLOBAL_FLAG_REGISTERED <> 0 ->
              Z.land (flags tc1) CHANNEL_FLAG_UNREGISTERED = 0 ->
              in_server tc1 <> NULL) as Srv1 by (by rewrite Ef, Es).
      destruct (get_built_step s1 pl ch o tc1 p O1 Lo1 Lp1 Live1 Srv1 F1)
        as (r2 & s2 & tc2 & G2 & L2 & _).
      exists r1, s1, r2, s2, (built_privilege o pl p).
      split; [done|]. split; [done|]. split; [done|]. split; [done|].
      split; [|done]. right.
      rewrite (privileges_of_owner _ _ _ _ O1 Lo1).
      rewrite (privileges_of_owner _ _ _ _ O Lo). by rewrite E1.
Qed.
End properties.

(** * More properties *)

Section more_properties.
Context `{!constants, !more_constants, !array_ops, !privilege_ops}.

(** ** Detaching *)


(** ** Attach, then detach *)

Lemma set_parent_same c : set_parent c (parent c) = c.
Proof. by destruct c. Qed.

(** X2.  Attaching a parentless channel to a top channel that takes
    subchannels and detaching it again both succeed, and leave every
    channel as it was but for the array of the parent, on which [ar_insert]
    and then [ar_remove] ran. *)
Theorem channel_add_then_remove s a c sub sc :
  chans s !! a = Some c ->
  parent c = NULL ->
  Z.land (flags c) CHANNEL_FLAG_SUBCHANNELS <> 0 ->
  chans s !! sub = Some sc ->
  parent sc = NULL ->
  a <> sub ->
  exists s1 s2,
    channel_add_subchannel s (Some a) (Some sub) = Done (1, s1) /\
    channel_remove_subchannel s1 (Some a) (Some sub) = Done (1, s2) /\
    chans s2 !! sub = Some sc /\
    chans s2 !! a
      = Some (set_subchannels c
                (ar_remove (ar_insert (subchannels c) (Some sub)).2 (Some sub))) /\
    (forall x, x <> a -> x <> sub -> chans s2 !! x = chans s !! x) /\
    pls s2 = pls s /\ privs s2 = privs s /\ db s2 = db s.
Proof.
  intros Ea Pa F Es Ps N.
  eexists _, _.
  split; [by apply channel_add_subchannel_fresh|].
  split.
  { apply channel_remove_subchannel_own with (sc := set_parent sc (Some a));
      cbn [store_chan chans].
    - rewrite lookup_insert_ne by done. by rewrite lookup_insert_eq.
    - done.
    - by rewrite lookup_insert_eq. }
  unfold detached. cbn [store_chan chans pls privs db].
  rewrite decide_False by done.
  split.
  { rewrite lookup_insert_eq. f_equal.
    change (set_parent sc NULL = sc). rewrite <- Ps. apply set_parent_same. }
  split.
  { rewrite lookup_insert_ne by done. by rewrite lookup_insert_eq. }
  split; [|done].
  intros x Xa Xs. by rewrite !lookup_insert_ne.
Qed.

(** ** Passwords *)

Lemma ch_getpass_top fuel s a c :
  chans s !! a = Some c -> parent c = NULL ->
  ch_getpass (S fuel) s (Some a) = Some (Done (own_password c)).
Proof.
  intros E P. cbn [ch_getpass]. rewrite (load_Some _ _ _ E), P.
  rewrite bool_decide_eq_true_2 by done. cbn [negb]. unfold own_password.
  by destruct (negb _).
Qed.

Lemma ch_getpass_up fuel s a c :
  chans s !! a = Some c -> parent c <> NULL ->
  ch_getpass (S fuel) s (Some a) = ch_getpass fuel s (parent c).
Proof.
  intros E P. cbn [ch_getpass]. rewrite (load_Some _ _ _ E).
  by rewrite bool_decide_eq_false_2.
Qed.

(** X3.  [ch_getpass] answers with the password of the top channel the
    parent pointers lead to, or NULL if that channel lacks PASSWORD; the
    flags and the buffer of the channels on the way play no part.  When
    the top channel is [n] steps up, the answer takes [n + 1] nested calls:
    it is there with any more fuel, and not with less. *)
Theorem ch_getpass_walk s n ch t :
  walks_to s n ch t ->
  forall fuel,
    ((n < fuel)%nat -> ch_getpass fuel s ch = Some (Done (own_password t))) /\
    ((fuel <= n)%nat -> ch_getpass fuel s ch = None).
Proof.
  induction 1 as [a c E P|n a c t E P W IH]; intros fuel.
  - split; intros Hf.
    + destruct fuel as [|fuel]; [lia|]. by apply ch_getpass_top.
    + by replace fuel with 0%nat by lia.
  - split; intros Hf.
    + destruct fuel as [|fuel]; [lia|].
      rewrite (ch_getpass_up _ _ _ _ E P). apply IH. lia.
    + destruct fuel as [|fuel]; [done|].
      rewrite (ch_getpass_up _ _ _ _ E P). apply IH. lia.
Qed.

Lemma land_disjoint_bits m k i :
  Z.land m k = 0 -> Z.testbit m i = true -> Z.testbit k i = false.
Proof.
  intros D M. apply (f_equal (fun z => Z.testbit z i)) in D.
  rewrite Z.land_spec, Z.bits_0, M in D. exact D.
Qed.

Lemma inherited_keeps f m :
  Z.land m CHANNEL_FLAG_SUBCHANNELS = 0 ->
  Z.land m CHANNEL_FLAG_DEFAULT = 0 ->
  Z.land (inherited f) m = Z.land f m.
Proof.
  intros Ds Dd. apply Z.bits_inj'. intros i _.
  rewrite !Z.land_spec, inherited_bits.
  destruct (Z.testbit m i) eqn:M; [|by rewrite !andb_false_r].
  rewrite (land_disjoint_bits _ _ _ Ds M), (land_disjoint_bits _ _ _ Dd M).
  by rewrite !andb_true_r.
Qed.

(** X4.  When the PASSWORD bit is none of the bits [ch_getflags] clears, the
    two getters agree on a subchannel of a top channel: [ch_getpass] hands
    out a buffer, the one of the parent, exactly when the effective flags
    carry PASSWORD. *)
Theorem ch_getpass_agrees_with_flags s a c pa p :
  Z.land CHANNEL_FLAG_PASSWORD CHANNEL_FLAG_SUBCHANNELS = 0 ->
  Z.land CHANNEL_FLAG_PASSWORD CHANNEL_FLAG_DEFAULT = 0 ->
  chans s !! a = Some c ->
  parent c = Some pa ->
  chans s !! pa = Some p ->
  parent p = NULL ->
  exists f,
    ch_getflags s (Some a) = Done f /\
    (Z.land f CHANNEL_FLAG_PASSWORD <> 0 ->
       ch_getpass 2 s (Some a) = Some (Done (Some (password p)))) /\
    (Z.land f CHANNEL_FLAG_PASSWORD = 0 ->
       ch_getpass 2 s (Some a) = Some (Done None)).
Proof.
  intros Ds Dd E P Ep Pp. exists (inherited (flags p)).
  split; [by eapply ch_getflags_sub|].
  rewrite (inherited_keeps _ _ Ds Dd).
  assert (ch_getpass 2 s (Some a) = Some (Done (own_password p))) as ->.
  { rewrite (ch_getpass_up _ _ _ _ E) by (by rewrite P).
    rewrite P. by apply ch_getpass_top. }
  unfold own_password. split; intros F.
  - apply Z.eqb_neq in F. by rewrite F.
  - apply Z.eqb_eq in F. by rewrite F.
Qed.

(** ** Attaching a channel to itself *)

Lemma channel_add_subchannel_self s a c :
  chans s !! a = Some c ->
  parent c = NULL ->
  Z.land (flags c) CHANNEL_FLAG_SUBCHANNELS <> 0 ->
  channel_add_subchannel s (Some a) (Some a)
  = Done (1, store_chan (store_chan s a (set_parent c (Some a))) a
               (set_subchannels (set_parent c (Some a))
                  (ar_insert (subchannels c) (Some a)).2)).
Proof.
  intros E P F. unfold channel_add_subchannel.
  rewrite (ch_getflags_top _ _ _ E P). cbn [mbind exec_bind].
  apply Z.eqb_neq in F. rewrite F.
  rewrite (load_Some _ _ _ E). cbn [mbind exec_bind]. rewrite P.
  rewrite bool_decide_eq_true_2 by done. cbn [negb mbind exec_bind addr_of].
  rewrite (load_Some _ _ _ E). cbn [mbind exec_bind].
  rewrite (load_Some _ _ (set_parent c (Some a)))
    by apply lookup_insert_eq.
  reflexivity.
Qed.

(** X5.  Nothing keeps a channel from being attached to itself: on a top
    channel that takes subchannels the call returns 1 and the channel is
    its own parent.  From then on its effective flags carry neither
    SUBCHANNELS nor DEFAULT, and [ch_getpass] on it does not return,
    however deep the calls may nest. *)
Theorem channel_add_subchannel_to_itself s a c :
  chans s !! a = Some c ->
  parent c = NULL ->
  Z.land (flags c) CHANNEL_FLAG_SUBCHANNELS <> 0 ->
  exists s',
    channel_add_subchannel s (Some a) (Some a) = Done (1, s') /\
    (parent <$> chans s' !! a) = Some (Some a) /\
    ch_getflags s' (Some a) = Done (inherited (flags c)) /\
    forall fuel, ch_getpass fuel s' (Some a) = None.
Proof.
  intros E P F. eexists. split; [by apply channel_add_subchannel_self|].
  cbn [store_chan chans].
  split; [by rewrite lookup_insert_eq|].
  split.
  { set (c' := set_subchannels (set_parent c (Some a))
                  (ar_insert (subchannels c) (Some a)).2).
    exact (ch_getflags_sub _ a c' a c' (lookup_insert_eq _ _ _) eq_refl
             (lookup_insert_eq _ _ _)). }
  intros fuel. induction fuel as [|fuel IH]; [done|].
  erewrite ch_getpass_up; [| cbn [chans]; apply lookup_insert_eq | done].
  exact IH.
Qed.

(** ** Joining a channel *)

(** X6.  On a channel that is not full, [add_player_to_channel] hands the
    player to [ar_insert].  If the container takes it, the call returns 1
    and the player's [in_chan] is the channel; every other channel, the one
    the player was in included, is as before and still lists the player.
    If the container refuses, the call returns 0 and the player is as
    before. *)
Theorem add_player_to_channel_joins s a c pa p :
  chans s !! a = Some c ->
  ch_isfull s (Some a) = Done 0 ->
  pls s !! pa = Some p ->
  exists s',
    add_player_to_channel s (Some a) (Some pa)
      = Done (if (ar_insert (players c) (Some pa)).1 =? AR_OK then 1 else 0, s') /\
    (players <$> chans s' !! a) = Some (ar_insert (players c) (Some pa)).2 /\
    pls s' !! pa
      = Some (if (ar_insert (players c) (Some pa)).1 =? AR_OK
              then set_in_chan p (Some a) else p) /\
    (forall b, b <> a -> chans s' !! b = chans s !! b) /\
    (forall q, q <> pa -> pls s' !! q = pls s !! q) /\
    privs s' = privs s /\ db s' = db s.
Proof.
  intros E F Ep. unfold add_player_to_channel. rewrite F.
  cbn [mbind exec_bind Z.eqb negb addr_of].
  rewrite (load_Some _ _ _ E). cbn [mbind exec_bind]. cbv zeta.
  destruct (_ =? AR_OK).
  - cbn [store_chan pls]. rewrite (load_Some _ _ _ Ep). cbn [mbind exec_bind].
    eexists. split; [reflexivity|]. cbn [store_pl store_chan chans pls privs db].
    split; [by rewrite lookup_insert_eq|].
    split; [by rewrite lookup_insert_eq|].
    split; [by intros; rewrite lookup_insert_ne|].
    split; [by intros; rewrite lookup_insert_ne|]. done.
  - eexists. split; [reflexivity|]. cbn [store_chan chans pls privs db].
    split; [by rewrite lookup_insert_eq|].
    split; [done|].
    split; [by intros; rewrite lookup_insert_ne|]. done.
Qed.

(** ** More on the codec *)

(** X7.  For a live channel whose parent, if any, is live,
    [channel_to_data] returns exactly when the size fits an [int]; past
    [INT_MAX] its assertion fails, while [channel_to_data_size] hands out
    the wrapped sum, which is not the size. *)
Theorem channel_to_data_returns_iff s a c :
  chans s !! a = Some c ->
  (parent c = NULL \/ exists p, load (chans s) (parent c) = Done p) ->
  ((exists n data, channel_to_data s (Some a) = Done (n, data))
     <-> wire_size c <= INT_MAX) /\
  (INT_MAX < wire_size c ->
     channel_to_data s (Some a) = Undefined /\
     exists n, channel_to_data_size s (Some a) = Done n /\ n <> wire_size c).
Proof.
  intros E P.
  assert (exists pid, match parent c with
          | None => pid = 4294967295
          | Some pa => exists p, chans s !! pa = Some p /\ pid = id p
          end) as (pid & P').
  { destruct P as [->|(p & Lp)]; [by eexists|].
    apply load_Done in Lp as (pa & -> & Ep). eauto. }
  pose proof (wire_size_pos c). split; [split|].
  - intros (n & data & R).
    destruct (channel_to_data_Done _ _ _ _ R)
      as (a' & c' & _ & [= <-] & E' & _ & _ & Hle & _).
    by replace c with c' by congruence.
  - intros Hle. rewrite (channel_to_data_unfold _ _ _ _ E P'). cbv zeta.
    rewrite to_int_small by lia. rewrite Z.eqb_refl. eauto.
  - intros Hgt. split; [by eapply channel_to_data_overflow|].
    exists (to_int (wire_size c)).
    split; [by apply channel_to_data_size_unfold|].
    pose proof (to_int_le (wire_size c)). lia.
Qed.

(** X8.  The parent field cannot tell a parent whose id is 0xFFFFFFFF from
    no parent: the channel is encoded as if it were a top channel. *)
Theorem channel_to_data_parent_sentinel s a c pa p :
  chans s !! a = Some c ->
  parent c = Some pa ->
  chans s !! pa = Some p ->
  id p = 4294967295 ->
  channel_to_data s (Some a)
  = channel_to_data (store_chan s a (set_parent c NULL)) (Some a).
Proof.
  intros E P Ep I.
  rewrite (channel_to_data_unfold s a c 4294967295 E)
    by (rewrite P; eauto).
  rewrite (channel_to_data_unfold _ a (set_parent c NULL) 4294967295);
    [reflexivity| cbn [store_chan chans]; apply lookup_insert_eq | done].
Qed.

Lemma to_u16_idemp x : to_u16 (to_u16 x) = to_u16 x.
Proof. unfold to_u16. apply Z.mod_mod. lia. Qed.

Lemma new_channel_Some alloc nm tp ds f co so m c :
  new_channel alloc nm tp ds f co so m = Some c ->
  c = {| id := 0; flags := to_u16 f; codec := to_u16 co;
         sort_order := to_u16 so; name := nm; topic := tp; desc := ds;
         password := repeat 0 30;
         players := set_max_slots (ar_new 4) (to_u16 m);
         subchannels := ar_new 4; pl_privileges := ar_new 4;
         parent := NULL; parent_id := 0; in_server := NULL |}.
Proof.
  unfold new_channel. destruct (negb (alloc 0%nat)); [done|].
  destruct (_ || _); [done|]. by intros [= <-].
Qed.

(** X9.  A channel as [new_channel] makes it, once it is in the state, comes
    back from the wire as it went: decoding its encoding yields the very
    same structure, field by field, and consumes the bytes written. *)
Theorem new_channel_round_trip s a alloc alloc' dst nm tp ds f co so m c :
  new_channel alloc nm tp ds f co so m = Some c ->
  cstring_ok nm = true -> cstring_ok tp = true -> cstring_ok ds = true ->
  wire_size c <= INT_MAX ->
  chans s !! a = Some c ->
  (forall k, alloc' k = true) ->
  exists data,
    channel_to_data s (Some a) = Done (wire_size c, data) /\
    channel_from_data alloc' data (wire_size c) dst = Done (wire_size c, Some c).
Proof.
  intros N Hn Ht Hd Hle E A.
  pose proof (wire_size_pos c). apply new_channel_Some in N.
  rewrite (channel_to_data_unfold s a c 4294967295 E) by (by subst c).
  cbv zeta. rewrite to_int_small by lia. rewrite Z.eqb_refl.
  eexists. split; [reflexivity|].
  rewrite channel_from_data_wire; try (by subst c); try done.
  change (to_u32 4294967295 =? 4294967295) with true. cbn [negb mbind exec_bind].
  rewrite new_channel_ok by done. subst c.
  cbn [flags codec sort_order players max_slots set_max_slots name topic desc].
  by rewrite !to_u16_idemp.
Qed.

(** ** Decoding from a stream *)

Lemma channel_from_data_stream alloc dst (i f co p so m : Z) (nm tp ds : cstring)
    (rest : list Z) len :
  cstring_ok nm = true -> cstring_ok tp = true -> cstring_ok ds = true ->
  16 + (strlen nm + 1) + (strlen tp + 1) + (strlen ds + 1) <= len ->
  len <= INT_MAX ->
  alloc 0%nat = true -> alloc 1%nat = true -> alloc 2%nat = true ->
  channel_from_data alloc
    ((wu32 i ++ wu16 f ++ wu16 co ++ wu32 p ++ wu16 so ++ wu16 m
      ++ strcpy nm ++ strcpy tp ++ strcpy ds) ++ rest) len dst
  = (d ← (if negb (to_u32 p =? 4294967295)
          then match new_channel (fun k => alloc (3 + k)%nat) nm tp ds
                       (to_u16 f) (to_u16 co) (to_u16 so) (to_u16 m) with
               | Some c => Done (Some (set_parent_id c (to_u32 p)))
               | None => Undefined
               end
          else Done (new_channel (fun k => alloc (3 + k)%nat) nm tp ds
                       (to_u16 f) (to_u16 co) (to_u16 so) (to_u16 m)));
     Done (16 + (strlen nm + 1) + (strlen tp + 1) + (strlen ds + 1), d)).
Proof.
  intros Hn Ht Hd Hlen Hmax A0 A1 A2.
  pose proof (strlen_nonneg nm). pose proof (strlen_nonneg tp).
  pose proof (strlen_nonneg ds).
  unfold channel_from_data. cbv zeta. change (0 + 4) with 4.
  rewrite (to_int_small len) by lia.
  set (hdr := wu32 i ++ wu16 f ++ wu16 co ++ wu32 p ++ wu16 so ++ wu16 m).
  assert (length hdr = 16%nat) as Lh by reflexivity.
  replace ((wu32 i ++ wu16 f ++ wu16 co ++ wu32 p ++ wu16 so ++ wu16 m
            ++ strcpy nm ++ strcpy tp ++ strcpy ds) ++ rest)
    with (wu32 i ++ wu16 f ++ wu16 co ++ wu32 p ++ wu16 so ++ wu16 m
          ++ (strcpy nm ++ strcpy tp ++ strcpy ds ++ rest))
    by (rewrite <- !app_assoc; reflexivity).
  destruct (read_header i f co p so m (strcpy nm ++ strcpy tp ++ strcpy ds ++ rest))
    as (R1 & R2 & R3 & R4 & R5).
  rewrite R1. cbn [mbind exec_bind]. rewrite R2. cbn [mbind exec_bind].
  rewrite R3. cbn [mbind exec_bind]. rewrite R4. cbn [mbind exec_bind].
  rewrite R5. cbn [mbind exec_bind]. clear R1 R2 R3 R4 R5.
  replace (wu32 i ++ wu16 f ++ wu16 co ++ wu32 p ++ wu16 so ++ wu16 m
           ++ strcpy nm ++ strcpy tp ++ strcpy ds ++ rest)
    with (hdr ++ nm ++ 0 :: (tp ++ 0 :: (ds ++ 0 :: rest)))
    by (unfold hdr, strcpy; rewrite <- !app_assoc; reflexivity).
  rewrite (strndup_in_place _ hdr nm) by (rewrite ?Lh, ?to_size_t_small; lia || done).
  rewrite A0. cbn [mbind exec_bind strlen_of].
  replace (hdr ++ nm ++ 0 :: (tp ++ 0 :: (ds ++ 0 :: rest)))
    with ((hdr ++ nm ++ [0]) ++ tp ++ 0 :: (ds ++ 0 :: rest))
    by (rewrite <- !app_assoc; reflexivity).
  rewrite (strndup_in_place _ (hdr ++ nm ++ [0]) tp)
    by (rewrite ?length_app, ?Lh, ?to_size_t_small; unfold strlen in *;
        simpl length; lia || done).
  rewrite A1. cbn [mbind exec_bind strlen_of].
  replace ((hdr ++ nm ++ [0]) ++ tp ++ 0 :: (ds ++ 0 :: rest))
    with ((hdr ++ nm ++ [0] ++ tp ++ [0]) ++ ds ++ 0 :: rest)
    by (rewrite <- !app_assoc; reflexivity).
  rewrite (strndup_in_place _ (hdr ++ nm ++ [0] ++ tp ++ [0]) ds)
    by (rewrite ?length_app, ?Lh, ?to_size_t_small; unfold strlen in *;
        simpl length; lia || done).
  rewrite A2. cbn [mbind exec_bind strlen_of].
  rewrite to_size_t_small by lia. reflexivity.
Qed.

(** X10.  Decoding reads one channel off the front of a buffer: bytes that
    follow the encoding, and a [len] that counts them in, change neither
    the channel that is built nor the count returned, which is the size of
    the encoding. *)
Theorem channel_from_data_prefix s a c n data alloc dst rest len :
  chans s !! a = Some c ->
  valid_channel s c = true ->
  (forall k, alloc k = true) ->
  channel_to_data s (Some a) = Done (n, data) ->
  n <= len <= INT_MAX ->
  exists c',
    channel_from_data alloc data n dst = Done (n, Some c') /\
    channel_from_data alloc (data ++ rest) len dst = Done (n, Some c').
Proof.
  intros E V A R Hlen.
  destruct (channel_to_data_Done _ _ _ _ R)
    as (a' & c' & pid & [= <-] & E' & P & -> & Hle & ->).
  rewrite E in E'. injection E' as <-.
  unfold valid_channel in V. rewrite !andb_true_iff in V.
  destruct V as (((((((Vf & Vc) & Vs) & Vm) & Vn) & Vt) & Vd) & Vp).
  rewrite channel_from_data_wire; try done.
  rewrite channel_from_data_stream; try done; [|unfold wire_size in *; lia..].
  rewrite new_channel_ok by done.
  destruct (negb _); cbn [mbind exec_bind]; eauto.
Qed.

(** ** Decoding: what a call that returns has done *)

Lemma byte_at_Done data off b :
  byte_at data off = Done b -> 0 <= off < Z.of_nat (length data).
Proof.
  unfold byte_at. destruct (Z.ltb_spec off 0); [done|].
  destruct (data !! Z.to_nat off) eqn:L; [|done].
  intros _. apply lookup_lt_Some in L. lia.
Qed.

Lemma byte_at_range data off b : byte_at data off = Done b -> 0 <= b < 256.
Proof.
  unfold byte_at. destruct (off <? 0); [done|].
  destruct (data !! Z.to_nat off) as [x|]; [|done].
  intros [= <-]. apply Z.mod_pos_bound. lia.
Qed.

Lemma ru16_Done data off v p :
  ru16 data off = Done (v, p) ->
  p = off + 2 /\ off + 2 <= Z.of_nat (length data) /\ is_u16 v = true.
Proof.
  unfold ru16. destruct (byte_at data off) as [b0|] eqn:B0; [|done].
  cbn [mbind exec_bind].
  destruct (byte_at data (off + 1)) as [b1|] eqn:B; [|done].
  cbn [mbind exec_bind].
  intros [= <- <-].
  pose proof (byte_at_range _ _ _ B0). pose proof (byte_at_range _ _ _ B).
  apply byte_at_Done in B.
  split; [done|]. split; [lia|].
  rewrite lor_shiftl by lia. unfold is_u16.
  apply andb_true_iff. rewrite Z.leb_le, Z.ltb_lt. lia.
Qed.

Lemma ru32_Done data off v p :
  ru32 data off = Done (v, p) ->
  p = off + 4 /\ off + 4 <= Z.of_nat (length data).
Proof.
  unfold ru32. destruct (byte_at data off); [|done]. cbn [mbind exec_bind].
  destruct (byte_at data (off + 1)); [|done]. cbn [mbind exec_bind].
  destruct (byte_at data (off + 2)); [|done]. cbn [mbind exec_bind].
  destruct (byte_at data (off + 3)) eqn:B; [|done]. cbn [mbind exec_bind].
  intros [= <- <-]. apply byte_at_Done in B. lia.
Qed.

Lemma strn_read_length mem n r :
  strn_read mem n = Done r -> strlen r <= Z.of_nat (length mem).
Proof.
  unfold strlen. revert n r. induction mem as [|b mem IH]; intros n r.
  - cbn [strn_read]. destruct (n <=? 0); [|done]. intros [= <-]. simpl. lia.
  - cbn [strn_read]. destruct (n <=? 0); [intros [= <-]; simpl; lia|].
    destruct (b mod 256 =? 0); [intros [= <-]; simpl; lia|].
    destruct (strn_read mem (n - 1)) as [r'|] eqn:R; [|done].
    cbn [mbind exec_bind]. intros [= <-]. specialize (IH _ _ R).
    simpl length. lia.
Qed.

Lemma strn_read_ok mem n r : strn_read mem n = Done r -> cstring_ok r = true.
Proof.
  revert n r. induction mem as [|b mem IH]; intros n r.
  - cbn [strn_read]. destruct (n <=? 0); [|done]. by intros [= <-].
  - cbn [strn_read]. destruct (n <=? 0); [by intros [= <-]|].
    destruct (Z.eqb_spec (b mod 256) 0) as [Z0|Z0]; [by intros [= <-]|].
    destruct (strn_read mem (n - 1)) as [r'|] eqn:R; [|done].
    cbn [mbind exec_bind]. intros [= <-]. apply cstring_ok_cons.
    split; [|by eapply IH]. pose proof (Z.mod_pos_bound b 256). lia.
Qed.

Lemma strndup_Done ok data off n r :
  strndup ok data off n = Done r ->
  exists x, r = (if ok then Some x else None) /\
    strlen x <= Z.of_nat (length data) /\ cstring_ok x = true.
Proof.
  unfold strndup. destruct (off <? 0); [done|].
  destruct (strn_read _ n) as [x|] eqn:R; [|done]. cbn [mbind exec_bind].
  intros [= <-]. exists x. split; [done|].
  split; [|by eapply strn_read_ok].
  apply strn_read_length in R. rewrite length_drop in R. lia.
Qed.

(** What a returning call has read: the five header fields, and three
    strings out of successful [strndup]s. *)
Lemma channel_from_data_Done alloc data len dst n d :
  channel_from_data alloc data len dst = Done (n, d) ->
  16 <= Z.of_nat (length data) /\
  alloc 0%nat = true /\ alloc 1%nat = true /\ alloc 2%nat = true /\
  exists f co p so m nm tp ds,
    ru16 data 4 = Done (f, 6) /\ ru16 data 6 = Done (co, 8) /\
    ru32 data 8 = Done (p, 12) /\ ru16 data 12 = Done (so, 14) /\
    ru16 data 14 = Done (m, 16) /\
    is_u16 f = true /\ is_u16 co = true /\ is_u16 so = true /\
    is_u16 m = true /\
    cstring_ok nm = true /\ cstring_ok tp = true /\ cstring_ok ds = true /\
    strlen nm <= Z.of_nat (length data) /\
    strlen tp <= Z.of_nat (length data) /\
    strlen ds <= Z.of_nat (length data) /\
    n = to_size_t (16 + (strlen nm + 1) + (strlen tp + 1) + (strlen ds + 1)) /\
    (if negb (p =? 4294967295)
     then match new_channel (fun k => alloc (3 + k)%nat) nm tp ds f co so m with
          | Some c => Done (Some (set_parent_id c p))
          | None => Undefined
          end
     else Done (new_channel (fun k => alloc (3 + k)%nat) nm tp ds f co so m))
    = Done d.
Proof.
  unfold channel_from_data. cbv zeta. change (0 + 4) with 4.
  destruct (ru16 data 4) as [[f p1]|] eqn:R1; [|done].
  destruct (ru16_Done _ _ _ _ R1) as (-> & _ & U1). cbn [mbind exec_bind].
  change (4 + 2) with 6 in *.
  destruct (ru16 data 6) as [[co p2]|] eqn:R2; [|done].
  destruct (ru16_Done _ _ _ _ R2) as (-> & _ & U2). cbn [mbind exec_bind].
  change (6 + 2) with 8 in *.
  destruct (ru32 data 8) as [[p p3]|] eqn:R3; [|done].
  destruct (ru32_Done _ _ _ _ R3) as [-> _]. cbn [mbind exec_bind].
  change (8 + 4) with 12 in *.
  destruct (ru16 data 12) as [[so p4]|] eqn:R4; [|done].
  destruct (ru16_Done _ _ _ _ R4) as (-> & _ & U4). cbn [mbind exec_bind].
  change (12 + 2) with 14 in *.
  destruct (ru16 data 14) as [[m p5]|] eqn:R5; [|done].
  destruct (ru16_Done _ _ _ _ R5) as (-> & L16 & U5). cbn [mbind exec_bind].
  change (14 + 2) with 16 in *.
  destruct (strndup (alloc 0%nat) data 16 _) as [r1|] eqn:S1; [|done].
  apply strndup_Done in S1 as (nm & -> & Ln & Cn). cbn [mbind exec_bind].
  destruct (alloc 0%nat); [|done]. cbn [strlen_of mbind exec_bind].
  destruct (strndup (alloc 1%nat) data _ _) as [r2|] eqn:S2; [|done].
  apply strndup_Done in S2 as (tp & -> & Lt & Ct). cbn [mbind exec_bind].
  destruct (alloc 1%nat); [|done]. cbn [strlen_of mbind exec_bind].
  destruct (strndup (alloc 2%nat) data _ _) as [r3|] eqn:S3; [|done].
  apply strndup_Done in S3 as (ds & -> & Ld & Cd). cbn [mbind exec_bind].
  destruct (alloc 2%nat); [|done]. cbn [strlen_of mbind exec_bind].
  intros D.
  split; [lia|]. do 3 (split; [done|]).
  exists f, co, p, so, m, nm, tp, ds.
  do 15 (split; [done|]).
  destruct (if negb (p =? 4294967295) then _ else _) as [d'|]; [|done].
  cbn [mbind exec_bind] in D. injection D as <- <-. done.
Qed.

(** X11.  The failure branch of [channel_from_data] is dead: the NULL of a
    failed [strndup] is handed to [strlen] before it is tested.  So a call
    that returns had its three [strndup]s succeed, and (on a buffer below
    2^62 bytes) returns at least 19, never the 0 of that branch. *)
Theorem channel_from_data_never_zero alloc data len dst n d :
  Z.of_nat (length data) < 2 ^ 62 ->
  channel_from_data alloc data len dst = Done (n, d) ->
  19 <= n /\ alloc 0%nat = true /\ alloc 1%nat = true /\ alloc 2%nat = true.
Proof.
  intros Hl R.
  destruct (channel_from_data_Done _ _ _ _ _ _ R)
    as (_ & A0 & A1 & A2 & f & co & p & so & m & nm & tp & ds
          & _ & _ & _ & _ & _ & _ & _ & _ & _ & _ & _ & _ & Ln & Lt & Ld & -> & _).
  pose proof (strlen_nonneg nm). pose proof (strlen_nonneg tp).
  pose proof (strlen_nonneg ds).
  split; [|done]. unfold to_size_t. rewrite Z.mod_small; lia.
Qed.

(** X12.  The id on the wire is not read: two buffers that differ in their
    first four bytes only decode alike. *)
Theorem channel_from_data_skips_id alloc len dst (i0 i1 i2 i3 j0 j1 j2 j3 : Z)
    (rest : list Z) :
  channel_from_data alloc (i0 :: i1 :: i2 :: i3 :: rest) len dst
  = channel_from_data alloc (j0 :: j1 :: j2 :: j3 :: rest) len dst.
Proof.
  assert (forall off, 4 <= off ->
            byte_at (i0 :: i1 :: i2 :: i3 :: rest) off
            = byte_at (j0 :: j1 :: j2 :: j3 :: rest) off) as B.
  { intros off Ho. unfold byte_at.
    replace (Z.to_nat off) with (4 + Z.to_nat (off - 4))%nat by lia. done. }
  assert (forall ok off n, 4 <= off ->
            strndup ok (i0 :: i1 :: i2 :: i3 :: rest) off n
            = strndup ok (j0 :: j1 :: j2 :: j3 :: rest) off n) as S.
  { intros ok off n Ho. unfold strndup.
    replace (Z.to_nat off) with (4 + Z.to_nat (off - 4))%nat by lia. done. }
  assert (forall off, 4 <= off ->
            ru16 (i0 :: i1 :: i2 :: i3 :: rest) off
            = ru16 (j0 :: j1 :: j2 :: j3 :: rest) off) as R16.
  { intros off Ho. unfold ru16. by rewrite !B by lia. }
  assert (forall off, 4 <= off ->
            ru32 (i0 :: i1 :: i2 :: i3 :: rest) off
            = ru32 (j0 :: j1 :: j2 :: j3 :: rest) off) as R32.
  { intros off Ho. unfold ru32. by rewrite !B by lia. }
  unfold channel_from_data. cbv zeta. change (0 + 4) with 4.
  rewrite R16 by lia.
  destruct (ru16 _ 4) as [[f p1]|] eqn:R1; [|done].
  destruct (ru16_Done _ _ _ _ R1) as [-> _]. cbn [mbind exec_bind].
  rewrite R16 by lia.
  destruct (ru16 _ (4 + 2)) as [[co p2]|] eqn:R2; [|done].
  destruct (ru16_Done _ _ _ _ R2) as [-> _]. cbn [mbind exec_bind].
  rewrite R32 by lia.
  destruct (ru32 _ (4 + 2 + 2)) as [[p p3]|] eqn:R3; [|done].
  destruct (ru32_Done _ _ _ _ R3) as [-> _]. cbn [mbind exec_bind].
  rewrite R16 by lia.
  destruct (ru16 _ (4 + 2 + 2 + 4)) as [[so p4]|] eqn:R4; [|done].
  destruct (ru16_Done _ _ _ _ R4) as [-> _]. cbn [mbind exec_bind].
  rewrite R16 by lia.
  destruct (ru16 _ (4 + 2 + 2 + 4 + 2)) as [[m p5]|] eqn:R5; [|done].
  destruct (ru16_Done _ _ _ _ R5) as [-> _]. cbn [mbind exec_bind].
  rewrite S by lia.
  destruct (strndup _ _ _ _) as [[nm|]|]; [|done..].
  cbn [mbind exec_bind strlen_of]. pose proof (strlen_nonneg nm).
  rewrite S by lia.
  destruct (strndup _ _ _ _) as [[tp|]|]; [|done..].
  cbn [mbind exec_bind strlen_of]. pose proof (strlen_nonneg tp).
  rewrite S by lia. reflexivity.
Qed.

(** ** Decoding when [new_channel] fails *)

Lemma new_channel_None alloc nm tp ds f co so m :
  alloc 0%nat = false \/ alloc 1%nat = false \/ alloc 2%nat = false
    \/ alloc 3%nat = false ->
  new_channel alloc nm tp ds f co so m = None.
Proof.
  unfold new_channel. intros [A|[A|[A|A]]]; rewrite A; cbn [negb orb];
    try done; destruct (negb _); try done; by rewrite ?orb_true_r.
Qed.

(** X13.  When the strings are copied but [new_channel] fails, what happens
    hangs on the parent field of the wire.  Without a parent the call
    returns the size as if all were well, with [*dst] NULL; with a parent
    it stores [parent_id] through that NULL. *)
Theorem channel_from_data_without_channel s a c n data alloc dst :
  chans s !! a = Some c ->
  valid_channel s c = true ->
  channel_to_data s (Some a) = Done (n, data) ->
  alloc 0%nat = true -> alloc 1%nat = true -> alloc 2%nat = true ->
  alloc 3%nat = false \/ alloc 4%nat = false \/ alloc 5%nat = false
    \/ alloc 6%nat = false ->
  (parent c = NULL -> channel_from_data alloc data n dst = Done (n, None)) /\
  (parent c <> NULL -> channel_from_data alloc data n dst = Undefined).
Proof.
  intros E V R A0 A1 A2 Fail.
  destruct (channel_to_data_Done _ _ _ _ R)
    as (a' & c' & pid & [= <-] & E' & P & -> & Hle & ->).
  rewrite E in E'. injection E' as <-.
  unfold valid_channel in V. rewrite !andb_true_iff in V.
  destruct V as (((((((Vf & Vc) & Vs) & Vm) & Vn) & Vt) & Vd) & Vp).
  rewrite channel_from_data_wire; try done.
  rewrite new_channel_None by done.
  split.
  - intros Pn. unfold NULL in Pn. rewrite Pn in P. subst pid. reflexivity.
  - intros Pn. destruct (parent c) as [pa|]; [|done].
    destruct P as (p & Ep & ->). rewrite Ep in Vp.
    rewrite andb_true_iff, Z.leb_le, Z.ltb_lt in Vp.
    unfold to_u32. rewrite Z.mod_small by lia.
    by rewrite (proj2 (Z.eqb_neq (id p) 4294967295)) by lia.
Qed.

(** ** Decoding with a length below the fixed part *)

Lemma strn_read_overrun mem n :
  Forall (fun b => b mod 256 <> 0) mem ->
  Z.of_nat (length mem) < n ->
  strn_read mem n = Undefined.
Proof.
  intros F. revert n. induction F as [|b mem Hb _ IH]; intros n Hn.
  - cbn [strn_read]. simpl in Hn. by rewrite (proj2 (Z.leb_gt n 0)) by lia.
  - cbn [strn_read]. simpl length in Hn.
    rewrite (proj2 (Z.leb_gt n 0)) by lia.
    rewrite (proj2 (Z.eqb_neq _ 0)) by done.
    by rewrite IH by lia.
Qed.

Lemma strndup_overrun ok data off n :
  0 <= off ->
  Forall (fun b => b mod 256 <> 0) (drop (Z.to_nat off) data) ->
  Z.of_nat (length data) < n ->
  strndup ok data off n = Undefined.
Proof.
  intros Ho F Hn. unfold strndup. rewrite (proj2 (Z.ltb_ge off 0)) by lia.
  rewrite strn_read_overrun; [done|done|]. rewrite length_drop. lia.
Qed.

Lemma to_int_id x : - 2 ^ 31 <= x <= INT_MAX -> to_int x = x.
Proof. unfold to_int, INT_MAX. intros. rewrite Z.mod_small; lia. Qed.

(** X14.  A [len] below 19 does not bound the name: the subtraction goes
    below zero and [strndup] takes it for a length near 2^64.  On a buffer
    without NUL from offset 16 on, the call reads past the last byte. *)
Theorem channel_from_data_short_len alloc data len dst :
  - 2 ^ 31 <= len <= 18 ->
  Forall (fun b => b mod 256 <> 0) (drop 16 data) ->
  Z.of_nat (length data) < 2 ^ 62 ->
  channel_from_data alloc data len dst = Undefined.
Proof.
  intros Hlen NoNul Hl.
  unfold channel_from_data. cbv zeta. change (0 + 4) with 4.
  rewrite to_int_id by (unfold INT_MAX; lia).
  destruct (ru16 data 4) as [[f p1]|] eqn:R1; [|done].
  destruct (ru16_Done _ _ _ _ R1) as [-> _]. cbn [mbind exec_bind].
  destruct (ru16 data (4 + 2)) as [[co p2]|] eqn:R2; [|done].
  destruct (ru16_Done _ _ _ _ R2) as [-> _]. cbn [mbind exec_bind].
  destruct (ru32 data (4 + 2 + 2)) as [[p p3]|] eqn:R3; [|done].
  destruct (ru32_Done _ _ _ _ R3) as [-> _]. cbn [mbind exec_bind].
  destruct (ru16 data (4 + 2 + 2 + 4)) as [[so p4]|] eqn:R4; [|done].
  destruct (ru16_Done _ _ _ _ R4) as [-> _]. cbn [mbind exec_bind].
  destruct (ru16 data (4 + 2 + 2 + 4 + 2)) as [[m p5]|] eqn:R5; [|done].
  destruct (ru16_Done _ _ _ _ R5) as [-> _]. cbn [mbind exec_bind].
  change (4 + 2 + 2 + 4 + 2 + 2) with 16.
  rewrite strndup_overrun; [done|lia|done|].
  unfold to_size_t.
  replace (len - 16 - 3) with ((len - 19 + 2 ^ 64) + (-1) * 2 ^ 64) by lia.
  rewrite Z.mod_add by lia. rewrite Z.mod_small by lia. lia.
Qed.

(** ** More on privileges *)

(** X15.  The database hears of a privilege once, when it is built, and
    only for a player flagged as registered on a channel not flagged as
    unregistered.  A call that finds a record, and a call that builds one
    for another player or channel, leave the database alone. *)
Theorem get_player_channel_privilege_persists s pl ch o tc p :
  owner s ch = Done o ->
  load (chans s) o = Done tc ->
  load (pls s) pl = Done p ->
  (Z.land (global_flags p) GLOBAL_FLAG_REGISTERED <> 0 ->
   Z.land (flags tc) CHANNEL_FLAG_UNREGISTERED = 0 ->
   in_server tc <> NULL) ->
  (forall q, find_privilege s pl (slots (pl_privileges tc)) = Done (Some q) ->
     get_player_channel_privilege s pl ch = Done (q, s)) /\
  (find_privilege s pl (slots (pl_privileges tc)) = Done None ->
     exists r s1,
       get_player_channel_privilege s pl ch = Done (r, s1) /\
       db s1 = if negb (Z.land (global_flags p) GLOBAL_FLAG_REGISTERED =? 0)
                  && (Z.land (flags tc) CHANNEL_FLAG_UNREGISTERED =? 0)
               then r :: db s else db s).
Proof.
  intros O Lo Lp Srv. split.
  - intros q F. by eapply get_found.
  - intros F.
    destruct (load_Done _ _ _ Lo) as (oa & Eo & Eoa).
    apply owner_Done in O as (ca & c & -> & E & Ho).
    unfold get_player_channel_privilege.
    rewrite (load_Some _ _ _ E). cbn [mbind exec_bind]. cbv zeta.
    rewrite <- Ho, Lo. cbn [mbind exec_bind]. rewrite F. rewrite Lp.
    cbn [mbind exec_bind].
    destruct (Z.eqb_spec (Z.land (global_flags p) GLOBAL_FLAG_REGISTERED) 0)
      as [R|R]; cbn [negb andb].
    + unfold add_player_channel_privilege. rewrite Eo.
      cbn [mbind exec_bind addr_of store_priv chans load]. rewrite Eoa.
      cbn [mbind exec_bind]. eexists _, _. split; reflexivity.
    + destruct (Z.eqb_spec (Z.land (flags tc) CHANNEL_FLAG_UNREGISTERED) 0)
        as [U|U].
      * destruct (in_server tc) as [srv|] eqn:Is; [|by destruct (Srv R U)].
        unfold add_player_channel_privilege. rewrite Eo.
        cbn [mbind exec_bind addr_of store_priv log_db chans load]. rewrite Eoa.
        cbn [mbind exec_bind]. eexists _, _. split; reflexivity.
      * unfold add_player_channel_privilege. rewrite Eo.
        cbn [mbind exec_bind addr_of store_priv chans load]. rewrite Eoa.
        cbn [mbind exec_bind]. eexists _, _. split; reflexivity.
Qed.


Lemma owner_sub s a c pa :
  chans s !! a = Some c -> parent c = Some pa -> owner s (Some a) = Done (Some pa).
Proof.
  intros E P. unfold owner. rewrite (load_Some _ _ _ E). cbn [mbind exec_bind].
  by rewrite P.
Qed.


(** ** The predefined channel *)

(** X17.  [new_predef_channel] builds a channel without any flag, whatever
    the value of CHANNEL_FLAG_UNREGISTERED: a top channel for 16 players
    that takes 63 bytes on the wire, and on which every
    [channel_add_subchannel] is refused. *)
Theorem new_predef_channel_plain alloc c :
  new_predef_channel alloc = Some c ->
  flags c = 0 /\ parent c = NULL /\ max_slots (players c) = 16 /\
  wire_size c = 63 /\
  forall s a subchannel,
    chans s !! a = Some c ->
    channel_add_subchannel s (Some a) subchannel = Done (0, s).
Proof.
  unfold new_predef_channel. intros N. apply new_channel_Some in N.
  rewrite Z.land_0_l in N.
  assert (flags c = 0) as Fc by (by subst c).
  assert (parent c = NULL) as Pc by (by subst c).
  split; [done|]. split; [done|].
  split; [by subst c|]. split; [by subst c|].
  intros s a subchannel E.
  apply (channel_add_subchannel_refused _ _ _ 0); [|apply Z.land_0_l].
  by rewrite (ch_getflags_top _ _ _ E Pc), Fc.
Qed.

(** ** Capacity and effective flags *)

(** X18.  [ch_isfull] reads the stored flags of the channel, where
    [ch_getflags] derives the flags of a subchannel from its parent.  A
    subchannel whose own flags carry DEFAULT is not default by its
    effective flags, and yet is not full at its limit. *)
Theorem ch_isfull_reads_stored_flags s a c pa p :
  chans s !! a = Some c ->
  parent c = Some pa ->
  chans s !! pa = Some p ->
  Z.land (flags c) CHANNEL_FLAG_DEFAULT <> 0 ->
  max_slots (players c) <= used_slots (players c) < SIZE_MAX ->
  exists f,
    ch_getflags s (Some a) = Done f /\
    Z.land f CHANNEL_FLAG_DEFAULT = 0 /\
    ch_isfull s (Some a) = Done 0.
Proof.
  intros E P Ep D U. exists (inherited (flags p)).
  split; [by eapply ch_getflags_sub|]. split; [apply inherited_no_default|].
  unfold ch_isfull. rewrite (load_Some _ _ _ E). cbn [mbind exec_bind].
  apply Z.eqb_neq in D. rewrite D. cbn [negb]. rewrite to_size_t_m1.
  by rewrite (proj2 (Z.eqb_neq _ SIZE_MAX)) by lia.
Qed.

(** ** Whom a record answers to *)

(** X19.  Given distinct tags, a record built for a player not flagged as
    registered is found for that player only; one built for a registered
    player is found for every player with the same registration pointer,
    whatever the flags of the player who asks. *)
Theorem built_privilege_answers s o pl p pl' p' q :
  PL_CH_PRIV_REGISTERED <> PL_CH_PRIV_UNREGISTERED ->
  load (privs s) q = Done (built_privilege o pl p) ->
  load (pls s) pl' = Done p' ->
  (Z.land (global_flags p) GLOBAL_FLAG_REGISTERED <> 0 ->
     find_privilege s pl' [q]
     = Done (if bool_decide (reg p = reg p') then Some q else None)) /\
  (Z.land (global_flags p) GLOBAL_FLAG_REGISTERED = 0 ->
     find_privilege s pl' [q]
     = Done (if bool_decide (pl = pl') then Some q else None)).
Proof.
  intros T Lq Lp. rewrite find_privilege_cons, find_privilege_nil.
  unfold matches. rewrite Lq. cbn [mbind exec_bind]. unfold built_privilege.
  split; intros R.
  - apply Z.eqb_neq in R. rewrite R. cbn [negb priv_reg pl_or_reg].
    rewrite Z.eqb_refl, Lp. cbn [mbind exec_bind].
    rewrite (proj2 (Z.eqb_neq _ _) T). cbn [andb]. rewrite orb_false_r.
    by destruct (bool_decide _).
  - apply Z.eqb_eq in R. rewrite R. cbn [negb priv_reg pl_or_reg].
    rewrite (proj2 (Z.eqb_neq PL_CH_PRIV_UNREGISTERED PL_CH_PRIV_REGISTERED))
      by congruence.
    cbn [mbind exec_bind orb]. rewrite Z.eqb_refl. cbn [andb].
    by destruct (bool_decide _).
Qed.

(** ** What attaching gives the child *)

Lemma inherits_from s a ca sub scb :
  chans s !! sub = Some scb -> parent scb = Some a ->
  chans s !! a = Some ca -> parent ca = NULL ->
  ch_getflags s (Some sub) = Done (inherited (flags ca)) /\
  owner s (Some sub) = Done (Some a) /\
  ch_getpass 2 s (Some sub) = Some (Done (own_password ca)).
Proof.
  intros Es Ps Ea Pa.
  split; [by eapply ch_getflags_sub|]. split; [by eapply owner_sub|].
  rewrite (ch_getpass_up _ _ _ _ Es) by (by rewrite Ps).
  rewrite Ps. by apply ch_getpass_top.
Qed.

(** X20.  Once [channel_add_subchannel] has attached a channel, parentless
    or taken from another parent, the child answers for its new parent:
    its effective flags are the parent's less SUBCHANNELS and DEFAULT, its
    password is the parent's, and its privileges are looked up on the
    parent. *)
Theorem channel_add_subchannel_inherits s a c sub sc :
  chans s !! a = Some c ->
  parent c = NULL ->
  Z.land (flags c) CHANNEL_FLAG_SUBCHANNELS <> 0 ->
  chans s !! sub = Some sc ->
  (parent sc = NULL \/
   exists old oc, parent sc = Some old /\ chans s !! old = Some oc) ->
  a <> sub ->
  exists s',
    channel_add_subchannel s (Some a) (Some sub) = Done (1, s') /\
    ch_getflags s' (Some sub) = Done (inherited (flags c)) /\
    owner s' (Some sub) = Done (Some a) /\
    ch_getpass 2 s' (Some sub) = Some (Done (own_password c)).
Proof.
  intros Ea Pa F Es [Ps|(old & oc & Ps & Eo)] N.
  - eexists. split; [by apply channel_add_subchannel_fresh|].
    eapply (inherits_from _ a (set_subchannels c _) sub (set_parent sc (Some a)));
      cbn [store_chan chans]; try done.
    + rewrite lookup_insert_ne by done. by rewrite lookup_insert_eq.
    + by rewrite lookup_insert_eq.
  - rewrite (channel_add_subchannel_moved _ _ _ _ _ _ _ Ea Pa F Es Ps Eo).
    cbv zeta. eexists. split; [reflexivity|].
    destruct (decide (old = a)) as [->|No].
    + replace oc with c in * by congruence.
      eapply (inherits_from _ a (set_subchannels (set_subchannels c _) _) sub
                (set_parent _ (Some a))); cbn [store_chan chans]; try done.
      * rewrite lookup_insert_ne by done. by rewrite lookup_insert_eq.
      * by rewrite lookup_insert_eq.
    + eapply (inherits_from _ a (set_subchannels c _) sub (set_parent _ (Some a)));
        cbn [store_chan chans]; try done.
      * rewrite lookup_insert_ne by done. by rewrite lookup_insert_eq.
      * by rewrite lookup_insert_eq.
Qed.

(** ** What decoding builds *)

Lemma is_u16_to_u16 x : is_u16 (to_u16 x) = true.
Proof.
  unfold is_u16. pose proof (to_u16_range x).
  apply andb_true_iff. rewrite Z.leb_le, Z.ltb_lt. lia.
Qed.

(** X21.  Whatever the bytes, a channel that [channel_from_data] builds is
    a valid one: a top channel with id 0 and an empty password, 16-bit
    fields and strings without NUL; and the count returned is the size of
    that channel on the wire. *)
Theorem channel_from_data_builds_valid alloc data len dst n c s :
  Z.of_nat (length data) < 2 ^ 62 ->
  channel_from_data alloc data len dst = Done (n, Some c) ->
  valid_channel s c = true /\ n = wire_size c /\
  id c = 0 /\ parent c = NULL /\ password c = repeat 0 30.
Proof.
  intros Hl R.
  destruct (channel_from_data_Done _ _ _ _ _ _ R)
    as (_ & _ & _ & _ & f & co & p & so & m & nm & tp & ds
          & _ & _ & _ & _ & _ & _ & _ & _ & _ & Cn & Ct & Cd
          & Ln & Lt & Ld & -> & D).
  pose proof (strlen_nonneg nm). pose proof (strlen_nonneg tp).
  pose proof (strlen_nonneg ds).
  assert (exists c0 v, new_channel (fun k => alloc (3 + k)%nat) nm tp ds f co so m
                       = Some c0 /\ c = set_parent_id c0 v) as (c0 & v & N & ->).
  { destruct (negb _).
    - destruct (new_channel _ _ _ _ _ _ _ _) as [c0|]; [|done].
      injection D as <-. eauto.
    - destruct (new_channel _ _ _ _ _ _ _ _) as [c0|]; [|done].
      injection D as ->. exists c, (parent_id c). split; [done|by destruct c]. }
  apply new_channel_Some in N. subst c0.
  unfold valid_channel, wire_size.
  cbn [set_parent_id flags codec sort_order players max_slots set_max_slots
       name topic desc parent id password].
  rewrite !is_u16_to_u16, Cn, Ct, Cd.
  repeat split. unfold to_size_t. rewrite Z.mod_small; lia.
Qed.

End more_properties.

(** * Closed instances *)

#[local] Existing Instance sample_constants.
#[local] Existing Instance list_array_ops.
#[local] Existing Instance zero_privilege_ops.

Lemma list_array_laws : array_laws.
Proof.
  constructor. intros a x. cbn [ar_insert list_array_ops].
  destruct (used_slots a >=? max_slots a); cbn [snd slots]; [by right|].
  left. symmetry. apply Permutation_cons_append.
Qed.

(** The channels of [tree_state] were attached by the module itself. *)
Example tree_state_reached :
  (r ← channel_add_subchannel flat_state (Some 1%positive) (Some 2%positive);
   channel_add_subchannel r.2 (Some 3%positive) (Some 4%positive))
  = Done (1, tree_state).
Proof. vm_compute. reflexivity. Qed.

(** ** The codec *)

(** C1, the claim at the scenario of section 8: the id 5 of the encoded
    channel is not the id of the decoded one. *)
Lemma channel_round_trip_loses_id :
  chans lobby_state !! 1%positive = Some lobby /\
  valid_channel lobby_state lobby = true /\
  channel_to_data lobby_state (Some 1%positive) = Done (26, lobby_bytes) /\
  channel_from_data alloc_ok lobby_bytes 26 None
    = Done (26, Some (decoded 8 10 [76; 111; 98; 98; 121] [116] [100])) /\
  id lobby = 5 /\
  id (decoded 8 10 [76; 111; 98; 98; 121] [116] [100]) = 0 /\
  id (decoded 8 10 [76; 111; 98; 98; 121] [116] [100]) <> id lobby.
Proof. repeat split; try reflexivity. vm_compute. discriminate. Qed.

Lemma channel_round_trip_witness :
  chans lobby_state !! 1%positive = Some lobby /\
  valid_channel lobby_state lobby = true /\
  channel_to_data lobby_state (Some 1%positive) = Done (26, lobby_bytes) /\
  channel_to_data_size lobby_state (Some 1%positive) = Done 26 /\
  channel_from_data alloc_ok lobby_bytes 26 None
    = Done (26, Some (decoded 8 10 [76; 111; 98; 98; 121] [116] [100])).
Proof.
  assert (chans lobby_state !! 1%positive = Some lobby) as E by reflexivity.
  assert (valid_channel lobby_state lobby = true) as V by reflexivity.
  assert (channel_to_data lobby_state (Some 1%positive) = Done (26, lobby_bytes))
    as R by reflexivity.
  split; [exact E|]. split; [exact V|]. split; [exact R|].
  exact (channel_round_trip lobby_state 1%positive lobby 26 lobby_bytes alloc_ok
           None E V (fun _ => eq_refl) R).
Defined.

Lemma channel_to_data_size_contract_witness :
  channel_to_data lobby_state (Some 1%positive) = Done (26, lobby_bytes) /\
  channel_to_data_size lobby_state (Some 1%positive) = Done 26 /\
  Z.of_nat (length lobby_bytes) = 26.
Proof.
  assert (channel_to_data lobby_state (Some 1%positive) = Done (26, lobby_bytes))
    as R by reflexivity.
  split; [exact R|].
  destruct (proj1 (channel_to_data_size_contract lobby_state (Some 1%positive))
              26 lobby_bytes R) as (S & L & _).
  split; [exact S|exact L].
Defined.

(** C5, the claim at a buffer whose name field runs to the end: decoding
    succeeds, with the name cut where its bound ends. *)
Lemma channel_from_data_accepts_unterminated :
  Forall (fun b => b <> 0) (drop 16 unterminated) /\
  Z.of_nat (length unterminated) = 24 /\
  channel_from_data alloc_ok unterminated 24 None
    = Done (24, Some (decoded 8 10 [76; 111; 98; 98; 121] [] [])).
Proof.
  split; [|split; reflexivity].
  repeat constructor; discriminate.
Qed.

Lemma channel_from_data_bounded_witness :
  (exists n c,
     channel_from_data alloc_ok unterminated 24 None = Done (n, Some c) /\
     n = wire_size c /\ 19 <= n <= 24 /\
     name c = [76; 111; 98; 98; 121] /\ topic c = [] /\ desc c = [] /\ n = 24) /\
  (exists n c,
     channel_from_data alloc_ok lobby_bytes 26 None = Done (n, Some c) /\
     n = wire_size c /\
     name c = [76; 111; 98; 98; 121] /\ topic c = [116] /\ desc c = [100]).
Proof.
  split.
  - destruct (channel_from_data_bounded alloc_ok unterminated 24 None
                (fun _ => eq_refl))
      as (n & c & R & Hn & Hr & _ & _ & _ & _ & Cut & _).
    + unfold INT_MAX. lia.
    + simpl. lia.
    + destruct Cut as (Nm & Tp & Ds & Hl).
      { repeat constructor; discriminate. }
      exists n, c. split; [exact R|]. split; [exact Hn|]. split; [exact Hr|].
      split; [exact Nm|]. split; [exact Tp|]. split; [exact Ds|exact Hl].
  - destruct (channel_from_data_bounded alloc_ok lobby_bytes 26 None
                (fun _ => eq_refl))
      as (n & c & R & Hn & _ & _ & _ & _ & _ & _ & Nm & Tp & Ds & _).
    + unfold INT_MAX. lia.
    + simpl. lia.
    + exists n, c. split; [exact R|]. split; [exact Hn|].
      rewrite Nm in Tp, Ds.
      split; [exact Nm|]. split.
      * rewrite Tp in Ds |- *. reflexivity.
      * rewrite Tp in Ds. exact Ds.
Defined.

(** ** Flags and capacity *)

Lemma ch_getflags_inheritance_witness :
  ch_getflags tree_state (Some 1%positive) = Done 28 /\
  ch_getflags tree_state (Some 2%positive) = Done 4.
Proof.
  pose proof (ch_getflags_inheritance tree_state 1%positive _ eq_refl) as [T _].
  pose proof (ch_getflags_inheritance tree_state 2%positive _ eq_refl) as [_ S].
  split; [exact (T eq_refl)|].
  destruct (S 1%positive _ eq_refl eq_refl) as (f & G & -> & _).
  exact G.
Defined.

(** The default channel with its limit of 10 and 1000 players is not
    full. *)
Lemma ch_isfull_default_never_full_witness :
  (length <$> (slots <$> (players <$> chans default_state !! 1%positive)))
    = Some 1000%nat /\
  (max_slots <$> (players <$> chans default_state !! 1%positive)) = Some 10 /\
  ch_isfull default_state (Some 1%positive) = Done 0.
Proof.
  split; [reflexivity|]. split; [reflexivity|].
  assert (Z.land 16 CHANNEL_FLAG_DEFAULT <> 0) as D by (vm_compute; discriminate).
  apply (ch_isfull_default_never_full default_state 1%positive _ eq_refl D).
  vm_compute. split; [discriminate|reflexivity].
Defined.

Lemma add_player_to_channel_full_witness :
  add_player_to_channel full_state (Some 1%positive) (Some 3%positive)
    = Done (0, full_state) /\
  (used_slots <$> (players <$> chans full_state !! 1%positive)) = Some 2.
Proof.
  destruct (add_player_to_channel_full full_state 1%positive _ (Some 3%positive) 2
              eq_refl eq_refl eq_refl eq_refl) as (s' & R & -> & _ & U).
  split; [exact R|exact U].
Defined.

(** ** The hierarchy *)

Lemma channel_add_subchannel_below_top_witness :
  (parent <$> chans tree_state !! 2%positive) = Some (Some 1%positive) /\
  channel_add_subchannel tree_state (Some 2%positive) (Some 5%positive)
    = Done (0, tree_state).
Proof.
  split; [reflexivity|].
  exact (proj2 (proj2 (channel_add_subchannel_below_top tree_state 2%positive _
                         1%positive _ (Some 5%positive) eq_refl eq_refl eq_refl))).
Defined.

Lemma channel_add_subchannel_spec_witness :
  channel_add_subchannel tree_state (Some 5%positive) (Some 4%positive)
    = Done (0, tree_state) /\
  exists s',
    channel_add_subchannel tree_state (Some 1%positive) (Some 4%positive)
      = Done (1, s') /\
    (parent <$> chans s' !! 4%positive) = Some (Some 1%positive) /\
    (slots <$> (subchannels <$> chans s' !! 1%positive))
      = Some [Some 2%positive; Some 4%positive] /\
    (slots <$> (subchannels <$> chans s' !! 3%positive)) = Some [].
Proof.
  split.
  - exact (proj1 (channel_add_subchannel_spec tree_state (Some 5%positive)
                    (Some 4%positive) 0 eq_refl) eq_refl).
  - assert (Z.land 28 CHANNEL_FLAG_SUBCHANNELS <> 0) as F
      by (vm_compute; discriminate).
    destruct (proj2 (channel_add_subchannel_spec tree_state (Some 1%positive)
                       (Some 4%positive) 28 eq_refl) F 4%positive _ 3%positive _
                eq_refl eq_refl eq_refl eq_refl)
      as (a & c & s1 & s' & Ea & Ec & _ & _ & _ & R & P & S & O & _).
    injection Ea as <-. vm_compute in Ec. injection Ec as <-.
    exists s'. split; [exact R|]. split; [exact P|].
    split.
    + exact (eq_trans (f_equal (fmap slots) S) eq_refl).
    + assert (3%positive <> 1%positive) as N by discriminate.
      exact (eq_trans (f_equal (fmap slots) (O N)) eq_refl).
Defined.

(** C3 at a reachable state: channel 3, which has the subchannel 4, becomes
    a subchannel of channel 1 and keeps its own. *)
Lemma channel_add_subchannel_nests_witness :
  exists s' sc',
    channel_add_subchannel tree_state (Some 1%positive) (Some 3%positive)
      = Done (1, s') /\
    chans s' !! 3%positive = Some sc' /\
    parent sc' = Some 1%positive /\
    slots (subchannels sc') = [Some 4%positive] /\
    (parent <$> chans s' !! 4%positive) = Some (Some 3%positive).
Proof.
  assert (Z.land 28 CHANNEL_FLAG_SUBCHANNELS <> 0) as F
    by (vm_compute; discriminate).
  destruct (channel_add_subchannel_nests tree_state 1%positive _ 3%positive _
              eq_refl eq_refl F eq_refl eq_refl) as (s' & sc' & R & E & P & S & _).
  - discriminate.
  - discriminate.
  - exists s', sc'. split; [exact R|]. split; [exact E|]. split; [exact P|].
    split; [by rewrite S|].
    assert (channel_add_subchannel tree_state (Some 1%positive) (Some 3%positive)
            = Done (1, s')) as R' by exact R.
    vm_compute in R'. injection R' as <-. reflexivity.
Defined.

(** ** Privileges *)

Lemma lounge_resolvable : resolvable lounge_state (Some 1%positive) (Some 2%positive).
Proof.
  eexists (Some 1%positive), _, _.
  split; [reflexivity|]. split; [reflexivity|]. split; [reflexivity|].
  split; [constructor|]. discriminate.
Qed.

(** The registered player 1 asks for its privilege in the subchannel 2:
    the record is built on the owner, channel 1, and found there again. *)
Lemma get_player_channel_privilege_idempotent_witness :
  exists s1,
    get_player_channel_privilege lounge_state (Some 1%positive) (Some 2%positive)
      = Done (Some 1%positive, s1) /\
    get_player_channel_privilege s1 (Some 1%positive) (Some 2%positive)
      = Done (Some 1%positive, s1) /\
    load (privs s1) (Some 1%positive)
      = Done {| priv_ch := Some 1%positive; priv_reg := 1;
                pl_or_reg := Some 7%positive; priv_flags := 0 |} /\
    privileges_of lounge_state (Some 2%positive) = Done [] /\
    privileges_of s1 (Some 2%positive) = Done [Some 1%positive] /\
    db s1 = [Some 1%positive].
Proof.
  destruct (@get_player_channel_privilege_idempotent _ _ _ list_array_laws
              lounge_state (Some 1%positive) (Some 2%positive) lounge_resolvable)
    as (r1 & s1 & r2 & s2 & pr & G1 & G2 & L1 & L2 & _).
  assert (get_player_channel_privilege lounge_state (Some 1%positive)
            (Some 2%positive) = Done (r1, s1)) as G1' by exact G1.
  vm_compute in G1'. injection G1' as <- <-.
  assert (get_player_channel_privilege
            match get_player_channel_privilege lounge_state (Some 1%positive)
                    (Some 2%positive) with
            | Done r => r.2
            | Undefined => lounge_state
            end (Some 1%positive) (Some 2%positive) = Done (r2, s2)) as G2'
    by exact G2.
  vm_compute in G2'. injection G2' as <- <-.
  eexists. split; [exact G1|]. split; [exact G2|].
  repeat split.
Defined.

(** ** The rest of channel.c *)

#[local] Existing Instance sample_more_constants.


Lemma channel_add_then_remove_witness :
  exists s1,
    channel_add_subchannel flat_state (Some 1%positive) (Some 2%positive)
      = Done (1, s1) /\
    channel_remove_subchannel s1 (Some 1%positive) (Some 2%positive)
      = Done (1, flat_state).
Proof.
  assert (Z.land 28 CHANNEL_FLAG_SUBCHANNELS <> 0) as F
    by (vm_compute; discriminate).
  destruct (channel_add_then_remove flat_state 1%positive _ 2%positive _
              eq_refl eq_refl F eq_refl eq_refl) as (s1 & s2 & A & R & _).
  - discriminate.
  - exists s1. split; [exact A|].
    assert (channel_add_subchannel flat_state (Some 1%positive) (Some 2%positive)
            = Done (1, s1)) as A' by exact A.
    vm_compute in A'. injection A' as <-. vm_compute. reflexivity.
Defined.

Lemma ch_getpass_walk_witness :
  ch_getpass 2 tree_state (Some 2%positive) = Some (Done (Some (repeat 0 30))) /\
  ch_getpass 1 tree_state (Some 2%positive) = None.
Proof.
  assert (walks_to tree_state 1 (Some 2%positive)
            (sample_channel 1 28 [65] NULL [Some 2%positive] [] no_players)) as W.
  { eapply walk_up; [reflexivity|discriminate|].
    apply walk_top; reflexivity. }
  split.
  - assert (1 < 2)%nat as L by lia.
    exact (eq_trans (proj1 (ch_getpass_walk tree_state 1 _ _ W 2%nat) L) eq_refl).
  - apply (proj2 (ch_getpass_walk tree_state 1 _ _ W 1%nat)). lia.
Defined.

Lemma ch_getpass_agrees_with_flags_witness :
  ch_getflags tree_state (Some 2%positive) = Done 4 /\
  ch_getpass 2 tree_state (Some 2%positive) = Some (Done (Some (repeat 0 30))).
Proof.
  assert (Z.land CHANNEL_FLAG_PASSWORD CHANNEL_FLAG_SUBCHANNELS = 0) as Ds
    by reflexivity.
  assert (Z.land CHANNEL_FLAG_PASSWORD CHANNEL_FLAG_DEFAULT = 0) as Dd
    by reflexivity.
  destruct (ch_getpass_agrees_with_flags tree_state 2%positive _ 1%positive _
              Ds Dd eq_refl eq_refl eq_refl eq_refl)
    as (f & G & Y & _).
  assert (ch_getflags tree_state (Some 2%positive) = Done f) as G' by exact G.
  vm_compute in G'. injection G' as <-.
  split; [exact G|]. apply Y. discriminate.
Defined.

Lemma channel_add_subchannel_to_itself_witness :
  exists s',
    channel_add_subchannel flat_state (Some 1%positive) (Some 1%positive)
      = Done (1, s') /\
    (parent <$> chans s' !! 1%positive) = Some (Some 1%positive) /\
    ch_getpass 1000 s' (Some 1%positive) = None.
Proof.
  assert (Z.land 28 CHANNEL_FLAG_SUBCHANNELS <> 0) as F
    by (vm_compute; discriminate).
  destruct (channel_add_subchannel_to_itself flat_state 1%positive _
              eq_refl eq_refl F) as (s' & A & P & _ & G).
  exists s'. split; [exact A|]. split; [exact P|exact (G 1000%nat)].
Defined.

Lemma add_player_to_channel_joins_witness :
  exists s',
    add_player_to_channel lounge_state (Some 1%positive) (Some 2%positive)
      = Done (1, s') /\
    (in_chan <$> pls s' !! 2%positive) = Some (Some 1%positive) /\
    (slots <$> (players <$> chans s' !! 1%positive)) = Some [Some 2%positive].
Proof.
  assert (ch_isfull lounge_state (Some 1%positive) = Done 0) as NF
    by reflexivity.
  destruct (add_player_to_channel_joins lounge_state 1%positive _ 2%positive _
              eq_refl NF eq_refl) as (s' & A & C & P & _).
  exists s'. split; [exact A|].
  split.
  - exact (eq_trans (f_equal (fmap in_chan) P) eq_refl).
  - exact (eq_trans (f_equal (fmap slots) C) eq_refl).
Defined.

Lemma channel_to_data_returns_iff_witness :
  wire_size lobby <= INT_MAX /\
  exists n data, channel_to_data lobby_state (Some 1%positive) = Done (n, data).
Proof.
  assert (wire_size lobby <= INT_MAX) as L by (vm_compute; discriminate).
  split; [exact L|].
  exact (proj2 (proj1 (channel_to_data_returns_iff lobby_state 1%positive lobby
                         eq_refl (or_introl eq_refl))) L).
Defined.

Lemma channel_to_data_parent_sentinel_witness :
  channel_to_data sentinel_state (Some 2%positive)
  = channel_to_data
      (store_chan sentinel_state 2%positive
         (sample_channel 2 0 [66] NULL [] [] no_players)) (Some 2%positive).
Proof.
  exact (channel_to_data_parent_sentinel sentinel_state 2%positive _ 1%positive _
           eq_refl eq_refl eq_refl eq_refl).
Defined.

Lemma new_channel_round_trip_witness :
  exists c data,
    new_predef_channel alloc_ok = Some c /\
    chans predef_state !! 1%positive = Some c /\
    channel_to_data predef_state (Some 1%positive) = Done (63, data) /\
    channel_from_data alloc_ok data 63 None = Done (63, Some c).
Proof.
  destruct (new_predef_channel alloc_ok) as [c|] eqn:N; [|discriminate N].
  assert (wire_size c <= INT_MAX) as L
    by (vm_compute in N; injection N as <-; vm_compute; discriminate).
  assert (chans predef_state !! 1%positive = Some c) as E
    by (vm_compute in N; injection N as <-; reflexivity).
  destruct (new_channel_round_trip predef_state 1%positive alloc_ok alloc_ok None
              _ _ _ _ _ _ _ c N eq_refl eq_refl eq_refl L E (fun _ => eq_refl))
    as (data & T & F).
  assert (wire_size c = 63) as W
    by (vm_compute in N; injection N as <-; reflexivity).
  rewrite W in T, F.
  exists c, data. split; [reflexivity|]. split; [exact E|].
  split; [exact T|exact F].
Defined.

Lemma channel_from_data_prefix_witness :
  channel_from_data alloc_ok (lobby_bytes ++ [1; 2; 3]) 29 None
  = Done (26, Some (decoded 8 10 [76; 111; 98; 98; 121] [116] [100])).
Proof.
  assert (26 <= 29 <= INT_MAX) as L by (unfold INT_MAX; lia).
  destruct (channel_from_data_prefix lobby_state 1%positive lobby 26 lobby_bytes
              alloc_ok None [1; 2; 3] 29 eq_refl eq_refl (fun _ => eq_refl)
              eq_refl L) as (c' & D & P).
  assert (channel_from_data alloc_ok lobby_bytes 26 None = Done (26, Some c'))
    as D' by exact D.
  vm_compute in D'. injection D' as <-. exact P.
Defined.

Lemma channel_from_data_never_zero_witness :
  channel_from_data alloc_ok lobby_bytes 26 None
    = Done (26, Some (decoded 8 10 [76; 111; 98; 98; 121] [116] [100])) /\
  19 <= 26 /\ alloc_ok 0%nat = true.
Proof.
  assert (Z.of_nat (length lobby_bytes) < 2 ^ 62) as L by (simpl; lia).
  assert (channel_from_data alloc_ok lobby_bytes 26 None
          = Done (26, Some (decoded 8 10 [76; 111; 98; 98; 121] [116] [100])))
    as R by reflexivity.
  destruct (channel_from_data_never_zero alloc_ok lobby_bytes 26 None 26 _ L R)
    as (N & A & _).
  split; [exact R|]. split; [exact N|exact A].
Defined.

Lemma channel_from_data_without_channel_witness :
  channel_from_data alloc_strings_only lobby_bytes 26 None = Done (26, None).
Proof.
  apply (proj1 (channel_from_data_without_channel lobby_state 1%positive lobby 26
                  lobby_bytes alloc_strings_only None eq_refl eq_refl eq_refl
                  eq_refl eq_refl eq_refl (or_introl eq_refl))).
  reflexivity.
Defined.

Lemma channel_from_data_short_len_witness :
  channel_from_data alloc_ok unterminated 18 None = Undefined.
Proof.
  apply channel_from_data_short_len.
  - lia.
  - repeat constructor; discriminate.
  - simpl. lia.
Defined.

Lemma get_player_channel_privilege_persists_witness :
  exists r s1,
    get_player_channel_privilege lounge_state (Some 1%positive) (Some 2%positive)
      = Done (r, s1) /\
    db s1 = [r] /\
  exists r' s1',
    get_player_channel_privilege lounge_state (Some 2%positive) (Some 2%positive)
      = Done (r', s1') /\
    db s1' = [].
Proof.
  destruct (proj2 (get_player_channel_privilege_persists lounge_state
                     (Some 1%positive) (Some 2%positive) (Some 1%positive) _ _
                     eq_refl eq_refl eq_refl ltac:(discriminate)) eq_refl)
    as (r & s1 & G & D).
  destruct (proj2 (get_player_channel_privilege_persists lounge_state
                     (Some 2%positive) (Some 2%positive) (Some 1%positive) _ _
                     eq_refl eq_refl eq_refl ltac:(discriminate)) eq_refl)
    as (r' & s1' & G' & D').
  exists r, s1. split; [exact G|]. split; [exact D|].
  exists r', s1'. split; [exact G'|exact D'].
Defined.


Lemma new_predef_channel_plain_witness :
  exists c,
    new_predef_channel alloc_ok = Some c /\ flags c = 0 /\
    channel_add_subchannel predef_state (Some 1%positive) (Some 1%positive)
      = Done (0, predef_state).
Proof.
  destruct (new_predef_channel alloc_ok) as [c|] eqn:N; [|discriminate N].
  destruct (new_predef_channel_plain alloc_ok c N) as (F & _ & _ & _ & R).
  exists c. split; [reflexivity|]. split; [exact F|].
  apply R. vm_compute in N. injection N as <-. reflexivity.
Defined.

Lemma ch_isfull_reads_stored_flags_witness :
  ch_getflags odd_state (Some 2%positive) = Done 0 /\
  ch_isfull odd_state (Some 2%positive) = Done 0.
Proof.
  assert (Z.land 16 CHANNEL_FLAG_DEFAULT <> 0) as D by (vm_compute; discriminate).
  destruct (ch_isfull_reads_stored_flags odd_state 2%positive _ 1%positive _
              eq_refl eq_refl eq_refl D) as (f & G & _ & I).
  - vm_compute. split; [discriminate|reflexivity].
  - assert (ch_getflags odd_state (Some 2%positive) = Done f) as G' by exact G.
    vm_compute in G'. injection G' as <-. split; [exact G|exact I].
Defined.

Lemma built_privilege_answers_witness :
  find_privilege served_state (Some 1%positive) [Some 1%positive]
    = Done (Some (Some 1%positive)) /\
  find_privilege served_state (Some 2%positive) [Some 1%positive] = Done None.
Proof.
  assert (PL_CH_PRIV_REGISTERED <> PL_CH_PRIV_UNREGISTERED) as T by discriminate.
  assert (Z.land 1 GLOBAL_FLAG_REGISTERED <> 0) as R by discriminate.
  split.
  - exact (proj1 (built_privilege_answers served_state (Some 1%positive)
                    (Some 1%positive)
                    {| in_chan := NULL; reg := Some 7%positive; global_flags := 1 |}
                    (Some 1%positive) _ (Some 1%positive) T eq_refl eq_refl) R).
  - exact (proj1 (built_privilege_answers served_state (Some 1%positive)
                    (Some 1%positive)
                    {| in_chan := NULL; reg := Some 7%positive; global_flags := 1 |}
                    (Some 2%positive) _ (Some 1%positive) T eq_refl eq_refl) R).
Defined.

Lemma channel_add_subchannel_inherits_witness :
  exists s',
    channel_add_subchannel flat_state (Some 1%positive) (Some 2%positive)
      = Done (1, s') /\
    ch_getflags s' (Some 2%positive) = Done 4 /\
    owner s' (Some 2%positive) = Done (Some 1%positive) /\
    ch_getpass 2 s' (Some 2%positive) = Some (Done (Some (repeat 0 30))).
Proof.
  assert (Z.land 28 CHANNEL_FLAG_SUBCHANNELS <> 0) as F
    by (vm_compute; discriminate).
  destruct (channel_add_subchannel_inherits flat_state 1%positive _ 2%positive _
              eq_refl eq_refl F eq_refl (or_introl eq_refl))
    as (s' & A & G & O & P).
  - discriminate.
  - exists s'. split; [exact A|]. split; [exact G|]. split; [exact O|exact P].
Defined.

Lemma channel_from_data_builds_valid_witness :
  valid_channel lobby_state (decoded 8 10 [76; 111; 98; 98; 121] [] []) = true /\
  24 = wire_size (decoded 8 10 [76; 111; 98; 98; 121] [] []).
Proof.
  assert (Z.of_nat (length unterminated) < 2 ^ 62) as L by (simpl; lia).
  assert (channel_from_data alloc_ok unterminated 24 None
          = Done (24, Some (decoded 8 10 [76; 111; 98; 98; 121] [] [])))
    as R by reflexivity.
  destruct (channel_from_data_builds_valid alloc_ok unterminated 24 None 24 _
              lobby_state L R) as (V & W & _).
  split; [exact V|exact W].
Defined.
